(** * radioflux: flux measurement on radio maps

    A shallow embedding of [radioflux/radioflux.py]: the function [flatten],
    the constructor of the class [radiomap] and the constructor of the class
    [applyregion], with the properties of their specification.

    Conventions of the embedding.
    - A Python [float] is a real number of [R]; the results of this file
      are about the exact values and say nothing on rounding, infinities
      or NaN.
    - [None] is [None] of an [option]; an exception is the left summand of
      [Result].
    - A FITS header is the list of its cards, in file order; a keyword may
      occur more than once ([HISTORY] does).
    - A numpy array is a descriptor (buffer, shape) over a store of
      buffers, so that views share the buffer of the array they come from.
    - [print] statements are left out: they write to the standard output
      and change neither the control flow nor any value; so is the keyword
      argument [verbose] of [radiomap], which only selects some of them.
    - [printflux] and the loop of the command-line part are embedded with
      the output as the list of the items printed, before formatting;
      reading files, parsing region files and parsing the command line
      are taken as they come.

    The file has three parts: the embedding, with the inputs the examples
    use; the properties of the specification; further properties of the
    code. *)

From Stdlib Require Import ZArith Reals Lra Lia Psatz String Ascii List.
From Stdlib Require Import DecimalString DecimalNat.
From stdpp Require Import base option list gmap.
Import ListNotations.

Local Open Scope string_scope.
Local Open Scope list_scope.

(** * Part I: the embedding *)

(** ** Exceptions *)

Inductive exn : Type :=
| RadioError (msg : string)
| KeyError (key : string)
| IndexError
| ValueError
| TypeError
| NameError (name : string).

Definition Result (A : Type) : Type := exn + A.

Definition raise {A : Type} (e : exn) : Result A := inl e.
Definition ret {A : Type} (a : A) : Result A := inr a.

Definition bind {A B : Type} (m : Result A) (k : A -> Result B) : Result B :=
  match m with
  | inl e => inl e
  | inr a => k a
  end.

Declare Scope result_scope.
Delimit Scope result_scope with result.
Notation "x <- m ;; k" := (bind m (fun x => k))
  (at level 20, m at level 99, k at level 200, only parsing) : result_scope.
Notation "' p <- m ;; k" := (bind m (fun x => let 'p := x in k))
  (at level 20, p pattern, m at level 99, k at level 200, only parsing) : result_scope.

(** [lst[i]] for a non-negative constant [i]. *)
Definition getitem {A : Type} (l : list A) (i : nat) : Result A :=
  match l !! i with
  | Some a => ret a
  | None => raise IndexError
  end.

(** ** Header values and headers *)

Inductive Value : Type :=
| VInt (z : Z)
| VFloat (r : R)
| VStr (s : string).

Record Card : Type := mkCard { keyword : string; value : Value }.

Definition Header : Type := list Card.

(** [header.get(k)]: the value of the first card with keyword [k], or
    [None]. *)
Fixpoint header_get (h : Header) (k : string) : option Value :=
  match h with
  | [] => None
  | c :: h' => if String.eqb (keyword c) k then Some (value c) else header_get h' k
  end.

(** [header[k]] for an ordinary keyword. *)
Definition header_getitem (h : Header) (k : string) : Result Value :=
  match header_get h k with
  | Some v => ret v
  | None => raise (KeyError k)
  end.

(** The values of all the cards with keyword [k], in order. *)
Fixpoint header_values (h : Header) (k : string) : list Value :=
  match h with
  | [] => []
  | c :: h' =>
      if String.eqb (keyword c) k then value c :: header_values h' k
      else header_values h' k
  end.

(** [header['HISTORY']]: the texts of the [HISTORY] cards; [KeyError] when
    there is none. *)
Definition header_history (h : Header) : Result (list Value) :=
  match header_values h "HISTORY" with
  | [] => raise (KeyError "HISTORY")
  | vs => ret vs
  end.

(** [header[k] = v]: replaces the value of the first card with keyword
    [k], or appends a card. *)
Fixpoint header_set (h : Header) (k : string) (v : Value) : Header :=
  match h with
  | [] => [mkCard k v]
  | c :: h' =>
      if String.eqb (keyword c) k then mkCard k v :: h'
      else c :: header_set h' k v
  end.

(** Truth value of [r] in [if r:] where [r] comes from [header.get]. *)
Definition truthy (r : option Value) : bool :=
  match r with
  | None => false
  | Some (VInt z) => negb (Z.eqb z 0)
  | Some (VFloat x) => if Req_dec_T x 0 then false else true
  | Some (VStr s) => negb (String.eqb s "")
  end.

(** ** Strings: [in], [split] and [float] *)

(** [sub in s] on strings. *)
Fixpoint str_in (sub s : string) : bool :=
  if String.prefix sub s then true
  else match s with
       | EmptyString => false
       | String _ s' => str_in sub s'
       end.

(** The characters [str.split()] treats as separators: space, tab, line
    feed, vertical tab, form feed and carriage return. *)
Definition is_space (c : ascii) : bool :=
  let n := nat_of_ascii c in
  Nat.eqb n 32 || (Nat.leb 9 n && Nat.leb n 13).

(** [split_aux s] is the token that starts at the head of [s] (empty when
    [s] starts with a separator) and the tokens after it. *)
Fixpoint split_aux (s : string) : string * list string :=
  match s with
  | EmptyString => (EmptyString, [])
  | String c s' =>
      let '(cur, toks) := split_aux s' in
      if is_space c then
        (EmptyString, if String.eqb cur "" then toks else cur :: toks)
      else (String c cur, toks)
  end.

(** [s.split()]: the maximal runs of characters that are not separators. *)
Definition split (s : string) : list string :=
  let '(cur, toks) := split_aux s in
  if String.eqb cur "" then toks else cur :: toks.

Definition digit_of (c : ascii) : option Z :=
  let n := nat_of_ascii c in
  if Nat.leb 48 n && Nat.leb n 57 then Some (Z.of_nat (n - 48)) else None.

(** Reads the longest run of decimal digits at the head of [s]: the number
    read so far (starting from [acc]), how many digits were read, and the
    rest of the string. *)
Fixpoint read_digits (s : string) (acc : Z) (cnt : nat) : Z * nat * string :=
  match s with
  | EmptyString => (acc, cnt, s)
  | String c s' =>
      match digit_of c with
      | Some d => read_digits s' (10 * acc + d) (S cnt)
      | None => (acc, cnt, s)
      end
  end.

Definition read_sign (s : string) : bool * string :=
  match s with
  | String c s' =>
      if Ascii.eqb c "-" then (true, s')
      else if Ascii.eqb c "+" then (false, s')
      else (false, s)
  | EmptyString => (false, s)
  end.

(** The decimal numerals [float] accepts, without surrounding blanks:
    an optional sign, digits with an optional point (at least one digit in
    all), and an optional exponent [e] or [E] with an optional sign and at
    least one digit. The result [(m, e)] stands for [m * 10^e]. The
    spellings of infinity and NaN, which have no real value, are not
    numerals here. *)
Definition parse_decimal (s : string) : option (Z * Z) :=
  let '(neg, s1) := read_sign s in
  let '(m1, n1, s2) := read_digits s1 0 0 in
  let '(m2, n2, s3) :=
    match s2 with
    | String c s2' =>
        if Ascii.eqb c "." then read_digits s2' m1 0 else (m1, 0%nat, s2)
    | EmptyString => (m1, 0%nat, s2)
    end in
  if Nat.eqb (n1 + n2) 0 then None
  else
    let mant := if neg then (- m2)%Z else m2 in
    match s3 with
    | EmptyString => Some (mant, (- Z.of_nat n2)%Z)
    | String c s4 =>
        if Ascii.eqb c "e" || Ascii.eqb c "E" then
          let '(eneg, s5) := read_sign s4 in
          let '(e, ne, s6) := read_digits s5 0 0 in
          if Nat.eqb ne 0 then None
          else match s6 with
               | EmptyString =>
                   Some (mant, ((if eneg then - e else e) - Z.of_nat n2)%Z)
               | String _ _ => None
               end
        else None
    end.

(** [float(s)] for a string [s]. *)
Definition float (s : string) : Result R :=
  match parse_decimal s with
  | Some (m, e) => ret (IZR m * powerRZ 10 e)%R
  | None => raise ValueError
  end.

(** ** Arrays *)

(** An array is a view on a buffer of the store: the buffer's first
    [product shape] values in row-major order. The last axis of the array
    is the first axis of the FITS image ([NAXIS1]), the one before it is
    [NAXIS2], and so on. *)
Abbreviation loc := nat.

Record ndarray : Type := mkArray { buf : loc; shape : list nat }.

Abbreviation Store := (gmap nat (list R)).

Definition size_of (sh : list nat) : nat := fold_right Nat.mul 1%nat sh.

(** [a.ravel()]: the values of the array, in row-major order. *)
Definition ravel (st : Store) (a : ndarray) : list R :=
  take (size_of (shape a)) (default [] (st !! buf a)).

(** Row-major position of the element at the multi-index [idx] of an
    array of shape [sh]; [None] when the index has the wrong number of
    entries or one of them is out of range. *)
Fixpoint offset (sh idx : list nat) : option nat :=
  match sh, idx with
  | [], [] => Some 0%nat
  | n :: sh', i :: idx' =>
      if Nat.ltb i n then
        match offset sh' idx' with
        | Some o => Some (i * size_of sh' + o)%nat
        | None => None
        end
      else None
  | _, _ => None
  end.

(** [a[i1, ..., ik]] with one index per axis. *)
Definition item (st : Store) (a : ndarray) (idx : list nat) : option R :=
  match offset (shape a) idx with
  | Some o => ravel st a !! o
  | None => None
  end.

(** Shape of [a[(0,)*k + (np.s_[:],)*2]] for an array of shape [sh]:
    index 0 on the [k] leading axes, which must exist and be non-empty,
    and two full slices, for which two more axes must exist. *)
Fixpoint plane_shape (k : nat) (sh : list nat) : Result (list nat) :=
  match k with
  | O => if Nat.leb 2 (length sh) then ret sh else raise IndexError
  | S k' =>
      match sh with
      | [] => raise IndexError
      | n :: sh' => if Nat.eqb n 0 then raise IndexError else plane_shape k' sh'
      end
  end.

(** [a[(0,)*k + (np.s_[:],)*2]]: a view on the same buffer; the element
    [(0, ..., 0)] of the leading axes is at the start of the buffer. *)
Definition first_plane (k : nat) (a : ndarray) : Result ndarray :=
  (sh <- plane_shape k (shape a);;
   ret (mkArray (buf a) sh))%result.

(** ** The FITS file and its coordinate system *)

Record HDU : Type := mkHDU { header : Header; data : ndarray }.

(** The part of [astropy.wcs.WCS(...).wcs] the program reads and writes. *)
Record wcsprm : Type := mkWcs {
  crpix : list R;
  cdelt : list R;
  crval : list R;
  ctype : list string
}.

(** [wcs.WCS(naxis=2)] *)
Definition WCS_naxis2 : wcsprm :=
  mkWcs [0%R; 0%R] [1%R; 1%R] [0%R; 0%R] [""; ""].

(** [w.cdelt = v] and [w.crval = v]: the new value must have one entry per
    axis. *)
Definition check_naxis (n : nat) (v : list R) : Result (list R) :=
  if Nat.eqb (length v) n then ret v else raise ValueError.

(** Comparisons of a header value with the integer 2, as Python 2 decides
    them: a string is neither smaller than nor equal to a number. *)
Definition value_lt_2 (v : Value) : bool :=
  match v with
  | VInt z => Z.ltb z 2
  | VFloat x => if Rlt_dec x 2 then true else false
  | VStr _ => false
  end.

Definition value_eq_2 (v : Value) : bool :=
  match v with
  | VInt z => Z.eqb z 2
  | VFloat x => if Req_dec_T x 2 then true else false
  | VStr _ => false
  end.

(** Length of the tuple [(0,)*(naxis-2)]: a tuple is repeated by an
    integer only, and a negative count gives the empty tuple. *)
Definition plane_count (naxis : Value) : Result nat :=
  match naxis with
  | VInt z => ret (Z.to_nat (z - 2))
  | VFloat _ | VStr _ => raise TypeError
  end.

(** Reading a name that no assignment, import or definition binds, neither
    in the function nor in the module. *)
Definition unbound_name {A : Type} (name : string) : Result A :=
  raise (NameError name).

(** [str(i)] *)
Definition str (i : nat) : string := NilZero.string_of_uint (Nat.to_uint i).

Definition is_None {A : Type} (o : option A) : bool :=
  match o with
  | None => true
  | Some _ => false
  end.

(** [v /= d] where [d] is a float: defined on numbers only. *)
Definition idiv (v : option Value) (d : R) : Result R :=
  match v with
  | Some (VInt z) => ret (IZR z / d)%R
  | Some (VFloat x) => ret (x / d)%R
  | Some (VStr _) | None => raise TypeError
  end.

(** ** [class radiomap] and [class applyregion]: the objects *)

Record radiomap : Type := mkRadiomap {
  rm_f : HDU;
  rm_prhd : Header;
  rm_units : option Value;
  rm_bmaj : R;
  rm_bmin : R;
  rm_frq : Value;
  rm_area : R;
  rm_fhead : Header;
  rm_d : ndarray
}.

Record applyregion : Type := mkApplyregion {
  pixels : nat;
  rms : R;
  flux : R;
  mean : R;
  error : option R
}.

(** The keyword arguments [**extras] of [applyregion]: the two keys it
    looks up. *)
Record Extras : Type := mkExtras {
  background : option R;
  offsource : option R
}.

(** A region, by its only use: [region.get_mask(hdu=..., shape=...)], the
    mask in row-major order. *)
Definition Region : Type := HDU -> list nat -> list bool.

(** ** Statistics of numpy *)

Definition np_sum (vs : list R) : R := fold_right Rplus 0%R vs.

Definition np_mean (vs : list R) : R := (np_sum vs / INR (length vs))%R.

Definition np_std (vs : list R) : R :=
  let m := np_mean vs in
  sqrt (np_mean (map (fun v => ((v - m) * (v - m))%R) vs)).

(** [np.sum(mask)]: the number of [True] entries. *)
Definition count_true (mask : list bool) : nat :=
  length (filter (fun b => b = true) mask).

(** The values [np.extract(condition, arr)] selects from the flattened
    array: those where the condition holds. A condition shorter than the
    array leaves the rest of the array out; a [True] beyond the end of the
    array is an [IndexError]. *)
Fixpoint extract (cond : list bool) (vs : list R) : Result (list R) :=
  match cond, vs with
  | [], _ => ret []
  | b :: cond', v :: vs' =>
      (r <- extract cond' vs';;
       ret (if b then v :: r else r))%result
  | b :: cond', [] =>
      if b then raise IndexError else extract cond' []
  end.

(** ** [flatten] *)

Section Astropy.

(** Two operations of astropy are taken as they come: [wcs.WCS(header)],
    which reads the coordinate system of a header, and [WCS.to_header()],
    which writes one as cards. *)
Variable WCS : Header -> wcsprm.
Variable to_header : wcsprm -> Header.

(** Lines 19 to 35: the header of the plane. *)
Definition flatten_header (hdr : Header) : Result Header :=
  (let w := WCS hdr in
   let wn := WCS_naxis2 in
   x0 <- getitem (crpix w) 0;;
   x1 <- getitem (crpix w) 1;;
   cd <- check_naxis 2 (take 2 (cdelt w));;
   cv <- check_naxis 2 (take 2 (crval w));;
   t0 <- getitem (ctype w) 0;;
   t1 <- getitem (ctype w) 1;;
   let wn := mkWcs (<[1%nat:=x1]> (<[0%nat:=x0]> (crpix wn))) cd cv
                   (<[1%nat:=t1]> (<[0%nat:=t0]> (ctype wn))) in
   let header := to_header wn in
   let header := header_set header "NAXIS" (VInt 2) in
   ret (fold_left
          (fun header k =>
             let r := header_get hdr k in
             match r with
             | Some v => if truthy r then header_set header k v else header
             | None => header
             end)
          ["EQUINOX"; "EPOCH"] header))%result.

(** [flatten(f)] *)
Definition flatten (f : list HDU) : Result (Header * ndarray) :=
  (hdu <- getitem f 0;;
   naxis <- header_getitem (header hdu) "NAXIS";;
   if value_lt_2 naxis then raise (RadioError "Can't make map from this")
   else if value_eq_2 naxis then ret (header hdu, data hdu)
   else
     hd <- flatten_header (header hdu);;
     k <- plane_count naxis;;
     d <- first_plane k (data hdu);;
     ret (hd, d))%result.

End Astropy.

(** ** [radiomap.__init__] *)

(** What lines 72 to 74 read on one line of the history. *)
Definition line_beam (line : string) : Result (R * R) :=
  (let bits := split line in
   b3 <- getitem bits 3;;
   x <- float b3;;
   b5 <- getitem bits 5;;
   y <- float b5;;
   ret (x, y))%result.

(** Lines 70 to 74: the loop over the lines of the history, from the
    current values of [self.bmaj] and [self.bmin]. A card of the history
    that is not a text has no [in]. *)
Fixpoint scan_history (history : list Value) (bmaj bmin : option Value)
  : Result (option Value * option Value) :=
  match history with
  | [] => ret (bmaj, bmin)
  | VStr line :: rest =>
      if str_in "CLEAN BMAJ" line then
        (xy <- line_beam line;;
         scan_history rest (Some (VFloat (fst xy))) (Some (VFloat (snd xy))))%result
      else scan_history rest bmaj bmin
  | _ :: _ => raise TypeError
  end.

(** Lines 59 to 79: the beam axes. The [try] block catches [KeyError]
    only. *)
Definition resolve_beam (prhd : Header) : Result (option Value * option Value) :=
  let bmaj := header_get prhd "BMAJ" in
  let bmin := header_get prhd "BMIN" in
  let '(bmaj, bmin) :=
    if is_None bmaj
    then (header_get prhd "RESOL1", header_get prhd "RESOL2")
    else (bmaj, bmin) in
  ('(bmaj, bmin) <-
     (if is_None bmaj then
        match (history <- header_history prhd;;
               scan_history history bmaj bmin) with
        | inl (KeyError _) => ret (bmaj, bmin)
        | r => r
        end
      else ret (bmaj, bmin));;
   if is_None bmaj then raise (RadioError "No beam information found")
   else ret (bmaj, bmin))%result.

(** [ctype == 'FREQ'] *)
Definition is_FREQ (ctype : Value) : bool :=
  match ctype with
  | VStr s => String.eqb s "FREQ"
  | VInt _ | VFloat _ => false
  end.

(** Lines 88 to 97: the loop over [CTYPE1], [CTYPE2], ... It stops at the
    first keyword that is missing; [fuel] bounds the number of rounds. *)
Fixpoint scan_ctype (fuel : nat) (prhd : Header) (i : nat) : option Value :=
  match fuel with
  | O => None
  | S fuel' =>
      match header_get prhd ("CTYPE" ++ str i) with
      | None => None
      | Some ctype =>
          if is_FREQ ctype then header_get prhd ("CRVAL" ++ str i)
          else scan_ctype fuel' prhd (S i)
      end
  end.

(** Lines 82 to 101: the frequency. A header of [n] cards has at most [n]
    keywords, so that round [n + 1] at the latest meets a missing one
    ([scan_ctype_fuel] below). *)
Definition resolve_frq (prhd : Header) : Value :=
  let or_else (a b : option Value) := if is_None a then b else a in
  let frq := header_get prhd "RESTFRQ" in
  let frq := or_else frq (header_get prhd "RESTFREQ") in
  let frq := or_else frq (header_get prhd "FREQ") in
  let frq := or_else frq (scan_ctype (S (length prhd)) prhd 1) in
  match frq with
  | Some v => v
  | None => VInt 0
  end.

(** Lines 106 and 107: the test of the pixel and beam shapes. The second
    operand of [and] is evaluated only when the first holds; it reads
    [bmaj] and [bmin], not [self.bmaj] and [self.bmin]. The message of
    the error is given without the two numbers it formats. *)
Definition check_shapes (cd1 cd2 : R) : Result unit :=
  if Rgt_dec ((cd1 - cd2) / cd1) 1.0001 then
    (bmaj <- unbound_name "bmaj";;
     bmin <- unbound_name "bmin";;
     if Rgt_dec ((bmaj - bmin) / bmin) 1.0001 then
       raise (RadioError "Pixels are not square and beam is elliptical")
     else ret tt)%result
  else ret tt.

(** Line 50 *)
Definition gfactor : R := 2.0 * sqrt (2.0 * ln 2.0).

(** Line 114 *)
Definition beam_area (bmaj bmin : R) : R :=
  2.0 * PI * (bmaj * bmin) / (gfactor * gfactor).

(** [self.units], as lines 54 to 56 leave it. *)
Definition units_of (prhd : Header) : option Value :=
  let units := header_get prhd "BUNIT" in
  if is_None units then header_get prhd "UNIT" else units.

Section Constructor.

Variable WCS : Header -> wcsprm.
Variable to_header : wcsprm -> Header.

(** [radiomap(fitsfile)] *)
Definition radiomap_init (fitsfile : list HDU) : Result radiomap :=
  (f <- getitem fitsfile 0;;
   let prhd := header f in
   let units := units_of prhd in
   '(bmaj, bmin) <- resolve_beam prhd;;
   let frq := resolve_frq prhd in
   let w := WCS prhd in
   c0 <- getitem (cdelt w) 0;;
   let cd1 := (- c0)%R in
   cd2 <- getitem (cdelt w) 1;;
   _ <- check_shapes cd1 cd2;;
   bmaj <- idiv bmaj cd1;;
   bmin <- idiv bmin cd2;;
   let area := beam_area bmaj bmin in
   '(fhead, d) <- flatten WCS to_header fitsfile;;
   ret (mkRadiomap f prhd units bmaj bmin frq area fhead d))%result.

End Constructor.

(** ** [applyregion.__init__] *)

(** [np.extract(mask, a)]: a new array, in a buffer of its own. *)
Definition np_extract (mask : list bool) (a : ndarray) (st : Store)
  : Result ndarray * Store :=
  match extract mask (ravel st a) with
  | inl e => (inl e, st)
  | inr vs =>
      let l := fresh (dom st) in
      (inr (mkArray l [length vs]), <[l:=vs]> st)
  end.

(** [a -= x]: in place, on the values of the buffer the array covers. *)
Definition isub (a : ndarray) (x : R) (st : Store) : Store :=
  let n := size_of (shape a) in
  alter (fun vs => map (fun v => (v - x)%R) (take n vs) ++ drop n vs)
        (buf a) st.

(** [applyregion(rm, region, **extras)], from the store [st]: the object,
    or the exception, and the store after the call. *)
Definition applyregion_init (rm : radiomap) (region : Region)
    (extras : Extras) (st : Store) : Result applyregion * Store :=
  let bgval := match background extras with
               | Some b => b
               | None => 0%R
               end in
  let mask := region (rm_f rm) (shape (rm_d rm)) in
  let pixels := count_true mask in
  match np_extract mask (rm_d rm) st with
  | (inl e, st1) => (inl e, st1)
  | (inr data, st1) =>
      let st2 := isub data bgval st1 in
      let vals := ravel st2 data in
      let rms := np_std vals in
      let flux := (np_sum vals / rm_area rm)%R in
      let mean := np_mean vals in
      let error :=
        match offsource extras with
        | Some noise => Some (noise * sqrt (INR pixels / rm_area rm))%R
        | None => None
        end in
      (inr (mkApplyregion pixels rms flux mean error), st2)
  end.

(** ** Notions the properties are stated with *)

Definition marker : string := "CLEAN BMAJ".

Definition no_beam : exn := RadioError "No beam information found".

(** C2, as the specification has it, for the file [fitsfile]: the two axes
    are resolved, or the constructor raises
    [RadioError("No beam information found")]. *)
Definition resolved_or_no_beam (WCS : Header -> wcsprm)
    (to_header : wcsprm -> Header) (fitsfile : list HDU) : Prop :=
  (exists f a b, fitsfile !! 0%nat = Some f /\
                 resolve_beam (header f) = ret (Some a, Some b)) \/
  radiomap_init WCS to_header fitsfile = raise no_beam.

(** The coordinate system has the two axes [flatten] copies. *)
Definition two_axes (w : wcsprm) : Prop :=
  (2 <= length (crpix w))%nat /\ (2 <= length (cdelt w))%nat /\
  (2 <= length (crval w))%nat /\ (2 <= length (ctype w))%nat.

(** The record [applyregion] builds when the mask selects the values [vs]
    of the map. *)
Definition measure (rm : radiomap) (region : Region) (extras : Extras)
    (vs : list R) : applyregion :=
  let bgval := match background extras with
               | Some b => b
               | None => 0%R
               end in
  let vals := map (fun v => (v - bgval)%R) vs in
  let pixels := count_true (region (rm_f rm) (shape (rm_d rm))) in
  mkApplyregion pixels (np_std vals) (np_sum vals / rm_area rm)%R (np_mean vals)
    (match offsource extras with
     | Some noise => Some (noise * sqrt (INR pixels / rm_area rm))%R
     | None => None
     end).

(** Squaring [n] times, on real numbers and on fixed-point numbers of 60
    binary places rounded down: the bounds on [ln 2] are computed with
    them. *)
Definition sq_iter (n : nat) (r : R) : R := Nat.iter n (fun t => (t * t)%R) r.

Definition scale : Z := 2 ^ 60.

Definition sq_down (a : Z) : Z := (a * a) / scale.

(** ** Inputs of the examples *)

(** A coordinate reader: for the concrete headers of this file [wcs.WCS]
    is needed at a value. [keys_WCS] reads the first two axes from the keywords [CRPIXi],
    [CDELTi], [CRVALi] and [CTYPEi], with the defaults of astropy for a
    keyword that is absent, and [keys_to_header] writes them back. *)

Definition float_key (h : Header) (k : string) (dflt : R) : R :=
  match header_get h k with
  | Some (VFloat x) => x
  | Some (VInt z) => IZR z
  | Some (VStr _) | None => dflt
  end.

Definition str_key (h : Header) (k : string) : string :=
  match header_get h k with
  | Some (VStr s) => s
  | _ => ""
  end.

Definition keys_WCS (h : Header) : wcsprm :=
  mkWcs [float_key h "CRPIX1" 0; float_key h "CRPIX2" 0]
        [float_key h "CDELT1" 1; float_key h "CDELT2" 1]
        [float_key h "CRVAL1" 0; float_key h "CRVAL2" 0]
        [str_key h "CTYPE1"; str_key h "CTYPE2"].

Definition keys_to_header (w : wcsprm) : Header :=
  [ mkCard "WCSAXES" (VInt 2);
    mkCard "CRPIX1" (VFloat (nth 0 (crpix w) 0%R));
    mkCard "CRPIX2" (VFloat (nth 1 (crpix w) 0%R));
    mkCard "CDELT1" (VFloat (nth 0 (cdelt w) 1%R));
    mkCard "CDELT2" (VFloat (nth 1 (cdelt w) 1%R));
    mkCard "CRVAL1" (VFloat (nth 0 (crval w) 0%R));
    mkCard "CRVAL2" (VFloat (nth 1 (crval w) 0%R));
    mkCard "CTYPE1" (VStr (nth 0 (ctype w) ""));
    mkCard "CTYPE2" (VStr (nth 1 (ctype w) "")) ].

(** A header with the three sources of the beam, all different. *)
Definition header_three_sources : Header :=
  [ mkCard "NAXIS" (VInt 2);
    mkCard "RESOL1" (VFloat 0.1);
    mkCard "RESOL2" (VFloat 0.2);
    mkCard "HISTORY" (VStr "AIPS CLEAN BMAJ 0.005 BMIN 0.003");
    mkCard "BMAJ" (VFloat 0.01);
    mkCard "BMIN" (VFloat 0.02) ].

(** A header without beam keywords, with the beam in its history. *)
Definition header_history_only : Header :=
  [ mkCard "NAXIS" (VInt 2);
    mkCard "HISTORY" (VStr "AIPS IMAGR");
    mkCard "HISTORY" (VStr "AIPS CLEAN BMAJ 0.005 BMIN 0.003 BPA 0.0");
    mkCard "HISTORY" (VStr "AIPS done") ].

(** The header of the specification's case: [cd1 = 1.0], [cd2 = 2.0],
    [bmaj = 1.0], [bmin = 2.0], on an image of 2 by 2 pixels. *)
Definition header_nonsquare : Header :=
  [ mkCard "NAXIS" (VInt 2);
    mkCard "NAXIS1" (VInt 2);
    mkCard "NAXIS2" (VInt 2);
    mkCard "BUNIT" (VStr "JY/BEAM");
    mkCard "CDELT1" (VFloat (-1.0));
    mkCard "CDELT2" (VFloat 2.0);
    mkCard "BMAJ" (VFloat 1.0);
    mkCard "BMIN" (VFloat 2.0) ].

Definition fits_nonsquare : list HDU :=
  [ mkHDU header_nonsquare (mkArray 0%nat [2%nat; 2%nat]) ].

(** A header without any source of the beam. *)
Definition header_no_beam : Header :=
  [ mkCard "NAXIS" (VInt 2);
    mkCard "CDELT1" (VFloat (-1.0));
    mkCard "CDELT2" (VFloat 1.0);
    mkCard "HISTORY" (VStr "AIPS IMAGR") ].

(** A header whose history names the beam on a line that stops early. *)
Definition header_short_line : Header :=
  [ mkCard "NAXIS" (VInt 2);
    mkCard "CDELT1" (VFloat (-1.0));
    mkCard "CDELT2" (VFloat 1.0);
    mkCard "HISTORY" (VStr "AIPS CLEAN BMAJ") ].

(** A history with two lines for the beam, with different values. *)
Definition header_two_cleans : Header :=
  [ mkCard "NAXIS" (VInt 2);
    mkCard "CDELT1" (VFloat (-1.0));
    mkCard "CDELT2" (VFloat 1.0);
    mkCard "HISTORY" (VStr "AIPS CLEAN BMAJ 0.5 BMIN 0.25");
    mkCard "HISTORY" (VStr "AIPS CLEAN BMAJ 0.005 BMIN 0.003");
    mkCard "HISTORY" (VStr "AIPS done") ].

Definition fits_two_cleans : list HDU :=
  [ mkHDU header_two_cleans (mkArray 0%nat [2%nat; 2%nat]) ].

(** The map of [fits_two_cleans]: its beam is the one of the second line. *)
Definition radiomap_two_cleans : radiomap :=
  mkRadiomap (mkHDU header_two_cleans (mkArray 0%nat [2%nat; 2%nat]))
    header_two_cleans None
    (IZR 5 * powerRZ 10 (-3) / - (-1.0))%R
    (IZR 3 * powerRZ 10 (-3) / 1.0)%R
    (VInt 0)
    (beam_area (IZR 5 * powerRZ 10 (-3) / - (-1.0))
               (IZR 3 * powerRZ 10 (-3) / 1.0))%R
    header_two_cleans (mkArray 0%nat [2%nat; 2%nat]).

(** A cube of three planes of 2 by 2 pixels; the third axis is the
    frequency. *)
Definition header_cube : Header :=
  [ mkCard "NAXIS" (VInt 3);
    mkCard "NAXIS1" (VInt 2);
    mkCard "NAXIS2" (VInt 2);
    mkCard "NAXIS3" (VInt 3);
    mkCard "CTYPE1" (VStr "RA---SIN");
    mkCard "CTYPE2" (VStr "DEC--SIN");
    mkCard "CTYPE3" (VStr "FREQ");
    mkCard "CRVAL3" (VFloat 1.4e9);
    mkCard "CDELT1" (VFloat (-1.0));
    mkCard "CDELT2" (VFloat 1.0);
    mkCard "EQUINOX" (VFloat 2000.0);
    mkCard "BMAJ" (VFloat 4.0);
    mkCard "BMIN" (VFloat 2.0) ].

Definition fits_cube : list HDU :=
  [ mkHDU header_cube (mkArray 0%nat [3%nat; 2%nat; 2%nat]) ].

(** The store of the cube: its buffer holds the numbers 0 to 11. *)
Definition store_cube : Store := {[ 0%nat := map INR (seq 0 12) ]}.

(** A map of 4 by 4 pixels, all equal to 1, with a beam area of 4, and the
    region that covers it. *)
Definition radiomap_ones : radiomap :=
  mkRadiomap (mkHDU header_nonsquare (mkArray 0%nat [4%nat; 4%nat]))
    header_nonsquare (Some (VStr "JY/BEAM")) 1 1 (VInt 0) 4.0
    header_nonsquare (mkArray 0%nat [4%nat; 4%nat]).

Definition region_all : Region := fun _ sh => replicate (size_of sh) true.

Definition store_ones : Store := {[ 0%nat := replicate 16 1%R ]}.

(** ** More inputs of the examples *)

(** A header with a rest frequency and, on its third axis, another
    frequency. *)
Definition header_rest_freq : Header :=
  [ mkCard "NAXIS" (VInt 3);
    mkCard "CTYPE1" (VStr "RA---SIN");
    mkCard "CTYPE2" (VStr "DEC--SIN");
    mkCard "CTYPE3" (VStr "FREQ");
    mkCard "CRVAL3" (VFloat 1.4e9);
    mkCard "FREQ" (VFloat 1.5e9);
    mkCard "RESTFRQ" (VFloat 1.6e9) ].

(** A header whose frequency axis comes after an axis without type. *)
Definition header_axis_gap : Header :=
  [ mkCard "NAXIS" (VInt 3);
    mkCard "CTYPE1" (VStr "RA---SIN");
    mkCard "CTYPE3" (VStr "FREQ");
    mkCard "CRVAL3" (VFloat 1.4e9) ].

(** A map whose first axis grows with the pixel index: [CDELT1] is
    positive. *)
Definition header_positive_cdelt : Header :=
  [ mkCard "NAXIS" (VInt 2);
    mkCard "CDELT1" (VFloat 1.0);
    mkCard "CDELT2" (VFloat 1.0);
    mkCard "BMAJ" (VFloat 4.0);
    mkCard "BMIN" (VFloat 2.0) ].

Definition fits_positive_cdelt : list HDU :=
  [ mkHDU header_positive_cdelt (mkArray 0%nat [2%nat; 2%nat]) ].


(** The map [rm] with another beam area. *)
Definition with_area (rm : radiomap) (a : R) : radiomap :=
  mkRadiomap (rm_f rm) (rm_prhd rm) (rm_units rm) (rm_bmaj rm) (rm_bmin rm)
             (rm_frq rm) a (rm_fhead rm) (rm_d rm).

(** The region that covers nothing. *)
Definition region_none : Region := fun _ sh => replicate (size_of sh) false.

(** ** [printflux] and the command line *)

(** What [print] writes: the items of the [print] statements, one by one
    and in order, and the ends of line. An item is written as soon as it is
    evaluated, so that a statement that stops on an exception leaves the
    items before it on the line. Numbers are kept as they are before they
    are formatted. *)
Inductive Item : Type :=
| IStr (s : string)
| INum (n : nat)
| IFmt (x : R)
| IFloat (x : R)
| INewline.

(** ['%g' % v]: the number that is formatted; a string is not one. *)
Definition fmt_g (v : Value) : Result R :=
  match v with
  | VInt z => ret (IZR z)
  | VFloat x => ret x
  | VStr _ => raise TypeError
  end.

(** [if noise:] *)
Definition nonzero (x : R) : bool := if Req_dec_T x 0 then false else true.

(** The arguments of the command line, as [argparse] returns them. *)
Record Args : Type := mkArgs {
  files : list string;
  fgr : string;
  bgr : string;
  indiv : bool;
  bgsub : bool
}.

(** The keyword arguments of the two calls of lines 140 and 142. *)
Definition printflux_extras (noise : R) (bgsub : bool) (background : R) : Extras :=
  if bgsub then mkExtras (Some background) (Some noise)
  else mkExtras None (Some noise).

(** [printflux(rm, region, noise, bgsub, background, label)], from the
    store [st] and after the output [out]; [filename] is the global
    variable of that name. The attribute [fg.error] is set, since
    [offsource] is among the keyword arguments of both calls. *)
Definition printflux (filename : string) (rm : radiomap) (region : Region)
    (noise : R) (bgsub : bool) (background : R) (label : Item)
    (st : Store) (out : list Item) : Result unit * Store * list Item :=
  let extras := printflux_extras noise bgsub background in
  match applyregion_init rm region extras st with
  | (inl e, st1) => (inl e, st1, out)
  | (inr fg, st1) =>
      let out1 := out ++ [IStr filename; label] in
      match fmt_g (rm_frq rm) with
      | inl e => (inl e, st1, out1)
      | inr x =>
          let out2 := out1 ++ [IFmt x; IFloat (flux fg)] in
          let out3 := if nonzero noise
                      then out2 ++ from_option (fun err => [IFloat err]) [] (error fg)
                      else out2 in
          (inr tt, st1, out3 ++ [INewline])
      end
  end.

Section CommandLine.

Variable WCS : Header -> wcsprm.
Variable to_header : wcsprm -> Header.

(** Three more operations are taken as they come: [fits.open(filename)],
    whose arrays are in the store; [pyregion.open(path).as_imagecoord(header)],
    the list of the shapes of a region file; and [ShapeList.get_mask], the
    mask of a list of shapes. *)
Variable fits_open : string -> list HDU.
Variable Shape : Type.
Variable region_open : string -> Header -> list Shape.
Variable get_mask : list Shape -> Region.

(** Lines 182 to 184: the loop over the shapes of the foreground region,
    from the index [n]. *)
Fixpoint print_each (filename : string) (rm : radiomap) (noise : R)
    (bgsub : bool) (background : R) (fg_ir : list Shape) (n : nat)
    (st : Store) (out : list Item) : Result unit * Store * list Item :=
  match fg_ir with
  | [] => (inr tt, st, out)
  | reg :: rest =>
      match printflux filename rm (get_mask [reg]) noise bgsub background
                      (INum (n + 1)) st out with
      | (inl e, st1, out1) => (inl e, st1, out1)
      | (inr _, st1, out1) =>
          print_each filename rm noise bgsub background rest (S n) st1 out1
      end
  end.

(** Lines 168 to 177: the noise and the background level. *)
Definition background_of (args : Args) (rm : radiomap) (st : Store)
  : Result (R * R) * Store :=
  if negb (String.eqb (bgr args) "") then
    let bg_ir := region_open (bgr args) (rm_fhead rm) in
    match applyregion_init rm (get_mask bg_ir) (mkExtras None None) st with
    | (inl e, st1) => (inl e, st1)
    | (inr bg, st1) => (inr (rms bg, mean bg), st1)
    end
  else if bgsub args then
    (inl (RadioError "Background subtraction requested but no bg region"), st)
  else (inr (0%R, 0%R), st).

(** Lines 166 to 188: the body of the loop over the files. *)
Definition process_file (args : Args) (filename : string)
    (st : Store) (out : list Item) : Result unit * Store * list Item :=
  let fitsfile := fits_open filename in
  match radiomap_init WCS to_header fitsfile with
  | inl e => (inl e, st, out)
  | inr rm =>
      match background_of args rm st with
      | (inl e, st1) => (inl e, st1, out)
      | (inr (noise, background), st1) =>
          let fg_ir := region_open (fgr args) (rm_fhead rm) in
          if indiv args then
            print_each filename rm noise (bgsub args) background fg_ir 0 st1 out
          else
            printflux filename rm (get_mask fg_ir) noise (bgsub args) background
                      (IStr "") st1 out
      end
  end.

(** Lines 165 to 188: the loop over the files; an exception ends the
    program. *)
Fixpoint main_loop (args : Args) (filenames : list string)
    (st : Store) (out : list Item) : Result unit * Store * list Item :=
  match filenames with
  | [] => (inr tt, st, out)
  | filename :: rest =>
      match process_file args filename st out with
      | (inl e, st1, out1) => (inl e, st1, out1)
      | (inr _, st1, out1) => main_loop args rest st1 out1
      end
  end.

(** The program, after the command line is parsed. *)
Definition main (args : Args) (st : Store) : Result unit * Store * list Item :=
  main_loop args (files args) st [].

End CommandLine.

(** The readers of the examples: every file holds the map of ones, a
    region file holds one shape per character of its name, and a shape
    covers the whole image. *)
Definition fits_ones : list HDU :=
  [ mkHDU [ mkCard "NAXIS" (VInt 2);
            mkCard "CDELT1" (VFloat (-1.0));
            mkCard "CDELT2" (VFloat 1.0);
            mkCard "BMAJ" (VFloat 4.0);
            mkCard "BMIN" (VFloat 2.0);
            mkCard "FREQ" (VFloat 1.4e9) ]
          (mkArray 0%nat [4%nat; 4%nat]) ].

Definition open_ones (filename : string) : list HDU := fits_ones.

Definition open_shapes (path : string) (h : Header) : list unit :=
  replicate (String.length path) tt.

Definition mask_all (shapes : list unit) : Region := region_all.

(** A line of [printflux]: the file, the label, the frequency, the flux,
    the error when there is one, and the end of the line. *)
Definition is_row (filename : string) (label : Item) (x : R) (row : list Item)
  : Prop :=
  exists (fl : R) (errs : list Item),
    row = [IStr filename; label; IFmt x; IFloat fl] ++ errs ++ [INewline] /\
    (errs = [] \/ exists err, errs = [IFloat err]).


(** The line [printflux] writes when it raises nothing, for the frequency
    [x] and the flux [fl]. *)
Definition printflux_items (filename : string) (rm : radiomap) (region : Region)
    (noise : R) (label : Item) (x fl : R) : list Item :=
  [IStr filename; label; IFmt x; IFloat fl] ++
  (if nonzero noise
   then [IFloat (noise * sqrt (INR (count_true (region (rm_f rm) (shape (rm_d rm))))
                               / rm_area rm))%R]
   else []) ++
  [INewline].

(** The map of [fits_ones], and a command line for it. *)
Definition radiomap_fits_ones : radiomap :=
  match fits_ones with
  | f :: _ =>
      mkRadiomap f (header f) None (4.0 / - (-1.0))%R (2.0 / 1.0)%R (VFloat 1.4e9)
        (beam_area (4.0 / - (-1.0)) (2.0 / 1.0)) (header f) (data f)
  | [] => radiomap_ones
  end.

Definition args_indiv : Args := mkArgs ["a.fits"] "abc" "" true false.

(** * Part II: the properties *)

(** ** Strings *)

Example split_ex :
  split "AIPS   CLEAN BMAJ=  1.3889E-03 BMIN=  1.2E-03 BPA=   0.00"
  = ["AIPS"; "CLEAN"; "BMAJ="; "1.3889E-03"; "BMIN="; "1.2E-03"; "BPA="; "0.00"].
Proof. reflexivity. Qed.

Example parse_decimal_ex1 : parse_decimal "1.3889E-03" = Some (13889%Z, (-7)%Z).
Proof. reflexivity. Qed.

Example parse_decimal_ex2 : parse_decimal "0.005" = Some (5%Z, (-3)%Z).
Proof. reflexivity. Qed.

Example parse_decimal_ex3 : parse_decimal "-.5e+2" = Some ((-5)%Z, 1%Z).
Proof. reflexivity. Qed.

Example parse_decimal_ex4 :
  parse_decimal "." = None /\ parse_decimal "e5" = None /\
  parse_decimal "1.5x" = None /\ parse_decimal "BMIN=" = None /\
  parse_decimal "1." = Some (1%Z, 0%Z).
Proof. repeat split. Qed.

Example float_ex : float "0.005" = ret 0.005%R.
Proof.
  unfold float. rewrite parse_decimal_ex2. unfold ret. f_equal.
  simpl. lra.
Qed.

Lemma float_0_005 : float "0.005" = ret 0.005%R.
Proof.
  unfold float. change (parse_decimal "0.005") with (Some (5%Z, (-3)%Z)).
  unfold ret. f_equal. simpl. lra.
Qed.

Lemma float_0_003 : float "0.003" = ret 0.003%R.
Proof.
  unfold float. change (parse_decimal "0.003") with (Some (3%Z, (-3)%Z)).
  unfold ret. f_equal. simpl. lra.
Qed.

(** ** The error monad *)

Lemma bind_ret {A B : Type} (m : Result A) (k : A -> Result B) (b : B) :
  bind m k = ret b -> exists a, m = ret a /\ k a = ret b.
Proof.
  destruct m as [e|a]; simpl; intros H; [discriminate|].
  exists a. split; [reflexivity|exact H].
Qed.

Lemma bind_raise {A B : Type} (m : Result A) (k : A -> Result B) (e : exn) :
  bind m k = raise e ->
  m = raise e \/ exists a, m = ret a /\ k a = raise e.
Proof.
  destruct m as [e'|a]; simpl; intros H.
  - left. injection H as ->. reflexivity.
  - right. exists a. split; [reflexivity|exact H].
Qed.

Lemma getitem_ret {A : Type} (l : list A) (i : nat) (a : A) :
  getitem l i = ret a <-> l !! i = Some a.
Proof.
  unfold getitem, ret, raise. destruct (l !! i); split; intros H; congruence.
Qed.

Lemma getitem_raise {A : Type} (l : list A) (i : nat) (e : exn) :
  getitem l i = raise e -> e = IndexError /\ l !! i = None.
Proof.
  unfold getitem, ret, raise. destruct (l !! i); intros H; [discriminate|].
  split; congruence.
Qed.

Lemma float_raise (s : string) (e : exn) : float s = raise e -> e = ValueError.
Proof.
  unfold float, raise, ret. destruct (parse_decimal s) as [[m x]|]; congruence.
Qed.

(** ** The loop over the history *)

Lemma scan_history_cons_marker (line : string) (rest : list Value)
    (bmaj bmin : option Value) :
  str_in marker line = true ->
  scan_history (VStr line :: rest) bmaj bmin =
  bind (line_beam line)
       (fun xy => scan_history rest (Some (VFloat (fst xy))) (Some (VFloat (snd xy)))).
Proof. intros Hm. simpl. unfold marker in Hm. rewrite Hm. reflexivity. Qed.

Lemma scan_history_cons_other (line : string) (rest : list Value)
    (bmaj bmin : option Value) :
  str_in marker line = false ->
  scan_history (VStr line :: rest) bmaj bmin = scan_history rest bmaj bmin.
Proof. intros Hm. simpl. unfold marker in Hm. rewrite Hm. reflexivity. Qed.

Lemma line_beam_raise (line : string) (e : exn) :
  line_beam line = raise e -> e = IndexError \/ e = ValueError.
Proof.
  unfold line_beam. intros H.
  apply bind_raise in H as [H|(b3 & _ & H)]; [apply getitem_raise in H; tauto|].
  apply bind_raise in H as [H|(x & _ & H)]; [apply float_raise in H; tauto|].
  apply bind_raise in H as [H|(b5 & _ & H)]; [apply getitem_raise in H; tauto|].
  apply bind_raise in H as [H|(y & _ & H)]; [apply float_raise in H; tauto|].
  discriminate.
Qed.

Lemma line_beam_ret (line : string) (x y : R) :
  line_beam line = ret (x, y) <->
  exists b3 b5, split line !! 3%nat = Some b3 /\ float b3 = ret x /\
                split line !! 5%nat = Some b5 /\ float b5 = ret y.
Proof.
  unfold line_beam. split.
  - intros H.
    apply bind_ret in H as (b3 & H3 & H). apply getitem_ret in H3.
    apply bind_ret in H as (x' & Hx & H).
    apply bind_ret in H as (b5 & H5 & H). apply getitem_ret in H5.
    apply bind_ret in H as (y' & Hy & H).
    injection H as <- <-. eauto 10.
  - intros (b3 & b5 & H3 & Hx & H5 & Hy).
    apply getitem_ret in H3, H5.
    rewrite H3. simpl. rewrite Hx. simpl. rewrite H5. simpl. rewrite Hy.
    reflexivity.
Qed.

(** The loop raises nothing on lines without the marker. *)
Lemma scan_history_no_marker (lines : list string) (bmaj bmin : option Value) :
  Forall (fun l => str_in marker l = false) lines ->
  scan_history (map VStr lines) bmaj bmin = ret (bmaj, bmin).
Proof.
  induction 1 as [|l lines Hl _ IH]; [reflexivity|].
  change (map VStr (l :: lines)) with (VStr l :: map VStr lines).
  rewrite scan_history_cons_other by exact Hl. exact IH.
Qed.

(** The loop over two stretches of lines is the loop over the first, then
    over the second. *)
Lemma scan_history_app (l1 l2 : list Value) (bmaj bmin : option Value) :
  scan_history (l1 ++ l2) bmaj bmin =
  bind (scan_history l1 bmaj bmin) (fun r => scan_history l2 (fst r) (snd r)).
Proof.
  revert bmaj bmin. induction l1 as [|v l1 IH]; intros bmaj bmin; [reflexivity|].
  destruct v as [z|x|line]; try reflexivity.
  change ((VStr line :: l1) ++ l2) with (VStr line :: (l1 ++ l2)).
  destruct (str_in marker line) eqn:Hm.
  - rewrite !scan_history_cons_marker by exact Hm.
    destruct (line_beam line) as [e|xy]; [reflexivity|]. simpl. apply IH.
  - rewrite !scan_history_cons_other by exact Hm. apply IH.
Qed.

(** The exceptions of the loop. *)
Lemma scan_history_raise (history : list Value) (bmaj bmin : option Value) (e : exn) :
  scan_history history bmaj bmin = raise e ->
  e = IndexError \/ e = ValueError \/ e = TypeError.
Proof.
  revert bmaj bmin. induction history as [|v history IH]; intros bmaj bmin H.
  - discriminate.
  - destruct v as [z|x|line]; try (injection H as <-; tauto).
    destruct (str_in marker line) eqn:Hm.
    + rewrite scan_history_cons_marker in H by exact Hm.
      apply bind_raise in H as [H|(xy & _ & H)].
      * apply line_beam_raise in H. tauto.
      * eapply IH, H.
    + rewrite scan_history_cons_other in H by exact Hm. eapply IH, H.
Qed.

Lemma scan_history_raise_text (lines : list string) (bmaj bmin : option Value)
    (e : exn) :
  scan_history (map VStr lines) bmaj bmin = raise e ->
  e = IndexError \/ e = ValueError.
Proof.
  revert bmaj bmin. induction lines as [|line lines IH]; intros bmaj bmin H.
  - discriminate.
  - change (map VStr (line :: lines)) with (VStr line :: map VStr lines) in H.
    destruct (str_in marker line) eqn:Hm.
    + rewrite scan_history_cons_marker in H by exact Hm.
      apply bind_raise in H as [H|(xy & _ & H)].
      * apply line_beam_raise in H. exact H.
      * eapply IH, H.
    + rewrite scan_history_cons_other in H by exact Hm. eapply IH, H.
Qed.

(** The loop leaves the values of the last line that holds the marker. *)
Lemma scan_history_last (pre post : list string) (line : string)
    (bmaj bmin a b : option Value) :
  str_in marker line = true ->
  Forall (fun l => str_in marker l = false) post ->
  scan_history (map VStr (pre ++ line :: post)) bmaj bmin = ret (a, b) ->
  exists x y, line_beam line = ret (x, y) /\
              a = Some (VFloat x) /\ b = Some (VFloat y).
Proof.
  intros Hm Hpost H.
  rewrite map_app, scan_history_app in H.
  apply bind_ret in H as ([a1 b1] & _ & H).
  change (map VStr (line :: post)) with (VStr line :: map VStr post) in H.
  rewrite scan_history_cons_marker in H by exact Hm.
  apply bind_ret in H as ([x y] & Hl & H).
  rewrite (scan_history_no_marker post) in H by exact Hpost.
  injection H as <- <-. eauto.
Qed.

(** ** The beam axes *)

Lemma resolve_beam_direct (h : Header) (a : Value) :
  header_get h "BMAJ" = Some a ->
  resolve_beam h = ret (Some a, header_get h "BMIN").
Proof. intros Ha. unfold resolve_beam. rewrite Ha. reflexivity. Qed.

Lemma resolve_beam_resol (h : Header) (a : Value) :
  header_get h "BMAJ" = None ->
  header_get h "RESOL1" = Some a ->
  resolve_beam h = ret (Some a, header_get h "RESOL2").
Proof. intros Ha Hr. unfold resolve_beam. rewrite Ha, Hr. reflexivity. Qed.

(** Without [BMAJ] and [RESOL1] the axes are what the loop over the history
    leaves, from [None] and the value of [RESOL2]. *)
Lemma resolve_beam_history (h : Header) :
  header_get h "BMAJ" = None ->
  header_get h "RESOL1" = None ->
  resolve_beam h =
  bind (scan_history (header_values h "HISTORY") None (header_get h "RESOL2"))
       (fun r => if is_None (fst r) then raise no_beam else ret r).
Proof.
  intros Ha Hr. unfold resolve_beam, header_history. rewrite Ha, Hr. simpl.
  destruct (header_values h "HISTORY") as [|v hist] eqn:Hh; [reflexivity|].
  change (bind (ret (v :: hist)) ?k) with (k (v :: hist)). cbv beta.
  destruct (scan_history (v :: hist) None (header_get h "RESOL2"))
    as [e|[a b]] eqn:Hs.
  - apply scan_history_raise in Hs as [->|[->| ->]]; reflexivity.
  - reflexivity.
Qed.

(** C3. When [BMAJ] and [BMIN] are present the beam axes are their values,
    whatever [RESOL1], [RESOL2] and the history hold: two headers with the
    same [BMAJ] and [BMIN] have the same axes. More precisely, with [BMAJ]
    present the axes are the values of [BMAJ] and [BMIN]; with [BMAJ]
    absent and [RESOL1] present they are the values of [RESOL1] and
    [RESOL2]; so that the history is read only when both are absent. *)
Theorem beam_resolution_order (h : Header) :
  (forall a b : Value,
      header_get h "BMAJ" = Some a -> header_get h "BMIN" = Some b ->
      resolve_beam h = ret (Some a, Some b)) /\
  (forall (a b : Value) (h' : Header),
      header_get h "BMAJ" = Some a -> header_get h "BMIN" = Some b ->
      header_get h' "BMAJ" = Some a -> header_get h' "BMIN" = Some b ->
      resolve_beam h' = resolve_beam h) /\
  (forall a : Value,
      header_get h "BMAJ" = Some a ->
      resolve_beam h = ret (Some a, header_get h "BMIN")) /\
  (forall a : Value,
      header_get h "BMAJ" = None -> header_get h "RESOL1" = Some a ->
      resolve_beam h = ret (Some a, header_get h "RESOL2")).
Proof.
  split; [|split; [|split]].
  - intros a b Ha Hb. rewrite (resolve_beam_direct h a Ha), Hb. reflexivity.
  - intros a b h' Ha Hb Ha' Hb'.
    rewrite (resolve_beam_direct h a Ha), (resolve_beam_direct h' a Ha'), Hb, Hb'.
    reflexivity.
  - apply resolve_beam_direct.
  - apply resolve_beam_resol.
Qed.

Lemma beam_resolution_order_witness :
  resolve_beam header_three_sources = ret (Some (VFloat 0.01), Some (VFloat 0.02)).
Proof.
  apply (proj1 (beam_resolution_order header_three_sources)); reflexivity.
Defined.

(** C4. Without [BMAJ] and [RESOL1], when one line of the history holds
    ["CLEAN BMAJ"], the axes are the values of the fourth and of the sixth
    word of that line. *)
Theorem history_line_tokens (h : Header) (pre post : list string)
    (line b3 b5 : string) (x y : R) :
  header_get h "BMAJ" = None ->
  header_get h "RESOL1" = None ->
  header_values h "HISTORY" = map VStr (pre ++ line :: post) ->
  Forall (fun l => str_in "CLEAN BMAJ" l = false) (pre ++ post) ->
  str_in "CLEAN BMAJ" line = true ->
  split line !! 3%nat = Some b3 ->
  split line !! 5%nat = Some b5 ->
  float b3 = ret x ->
  float b5 = ret y ->
  resolve_beam h = ret (Some (VFloat x), Some (VFloat y)).
Proof.
  intros Ha Hr Hh Hno Hm H3 H5 Hx Hy.
  apply Forall_app in Hno as [Hpre Hpost].
  assert (Hl : line_beam line = ret (x, y)).
  { apply line_beam_ret. eauto 10. }
  rewrite resolve_beam_history, Hh by assumption.
  rewrite map_app, scan_history_app.
  rewrite (scan_history_no_marker pre) by exact Hpre.
  change (bind (ret ?r) ?k) with (k r). cbv beta.
  change (map VStr (line :: post)) with (VStr line :: map VStr post).
  rewrite scan_history_cons_marker by exact Hm.
  rewrite Hl. change (bind (ret ?r) ?k) with (k r). cbv beta.
  rewrite (scan_history_no_marker post) by exact Hpost. reflexivity.
Qed.

Lemma history_line_tokens_witness :
  resolve_beam header_history_only = ret (Some (VFloat 0.005), Some (VFloat 0.003)).
Proof.
  apply (history_line_tokens header_history_only
           ["AIPS IMAGR"] ["AIPS done"]
           "AIPS CLEAN BMAJ 0.005 BMIN 0.003 BPA 0.0" "0.005" "0.003");
    try reflexivity.
  - repeat constructor.
  - exact float_0_005.
  - exact float_0_003.
Defined.


(** ** The loop over the axis types *)

Lemma to_uint_nonnil (i : nat) : Nat.to_uint i <> Decimal.Nil.
Proof.
  intros H. pose proof (DecimalNat.Unsigned.of_to i) as Hi.
  rewrite H in Hi. simpl in Hi. subst i. discriminate.
Qed.

Lemma str_inj (a b : nat) : str a = str b -> a = b.
Proof.
  unfold str. intros H.
  pose proof (NilZero.usu _ (to_uint_nonnil a)) as Ha.
  pose proof (NilZero.usu _ (to_uint_nonnil b)) as Hb.
  rewrite H, Hb in Ha. injection Ha as Ha.
  rewrite <- (DecimalNat.Unsigned.of_to a), <- (DecimalNat.Unsigned.of_to b), Ha.
  reflexivity.
Qed.

Lemma header_get_keyword (h : Header) (k : string) (v : Value) :
  header_get h k = Some v -> In k (map keyword h).
Proof.
  induction h as [|c h IH]; simpl; [discriminate|].
  destruct (String.eqb_spec (keyword c) k) as [Hk|Hk]; [left; exact Hk|].
  intros H. right. apply IH, H.
Qed.

(** More rounds change nothing, unless all the rounds found their
    keyword. *)
Lemma scan_ctype_more (prhd : Header) (fuel extra i : nat) :
  scan_ctype (fuel + extra) prhd i = scan_ctype fuel prhd i \/
  forall j, (j < fuel)%nat ->
            exists c, header_get prhd ("CTYPE" ++ str (i + j)) = Some c.
Proof.
  revert i. induction fuel as [|fuel IH]; intros i.
  - right. intros j Hj. lia.
  - cbn [Nat.add scan_ctype].
    destruct (header_get prhd ("CTYPE" ++ str i)) as [c|] eqn:Hc; [|left; reflexivity].
    destruct (is_FREQ c); [left; reflexivity|].
    destruct (IH (S i)) as [Heq|Hall]; [left; exact Heq|].
    right. intros [|j] Hj.
    + rewrite Nat.add_0_r. eauto.
    + replace (i + S j)%nat with (S i + j)%nat by lia. apply Hall. lia.
Qed.

(** A header cannot hold more keywords than cards. *)
Lemma ctype_keywords_bound (prhd : Header) (n i : nat) :
  (forall j, (j < n)%nat ->
             exists c, header_get prhd ("CTYPE" ++ str (i + j)) = Some c) ->
  (n <= length prhd)%nat.
Proof.
  intros Hall.
  apply Nat.le_trans
    with (length (map (fun j => ("CTYPE" ++ str (i + j))%string) (seq 0 n))).
  { rewrite length_map, length_seq. lia. }
  rewrite <- (length_map keyword prhd).
  apply NoDup_incl_length.
  - apply Finite.Injective_map_NoDup; [|apply seq_NoDup].
    intros a b Hab. simpl in Hab. injection Hab as Hab.
    apply str_inj in Hab. lia.
  - intros k Hk. apply in_map_iff in Hk as (j & <- & Hj).
    apply in_seq in Hj. destruct (Hall j) as [c Hc]; [lia|].
    apply (header_get_keyword _ _ c Hc).
Qed.

(** The rounds [resolve_frq] allows are enough: the loop ends by itself
    within them. *)
Lemma scan_ctype_fuel (prhd : Header) (extra : nat) :
  scan_ctype (S (length prhd) + extra) prhd 1 =
  scan_ctype (S (length prhd)) prhd 1.
Proof.
  destruct (scan_ctype_more prhd (S (length prhd)) extra 1) as [H|H]; [exact H|].
  apply ctype_keywords_bound in H. lia.
Qed.

(** ** The test of the pixel and beam shapes *)

Lemma check_shapes_pass (cd1 cd2 : R) :
  ~ ((cd1 - cd2) / cd1 > 1.0001)%R -> check_shapes cd1 cd2 = ret tt.
Proof.
  intros H. unfold check_shapes.
  destruct (Rgt_dec ((cd1 - cd2) / cd1) 1.0001); [contradiction|reflexivity].
Qed.

Lemma check_shapes_fail (cd1 cd2 : R) :
  ((cd1 - cd2) / cd1 > 1.0001)%R -> check_shapes cd1 cd2 = raise (NameError "bmaj").
Proof.
  intros H. unfold check_shapes.
  destruct (Rgt_dec ((cd1 - cd2) / cd1) 1.0001); [reflexivity|contradiction].
Qed.

(** The test never raises a [RadioError]: it passes, or it stops on the
    name [bmaj]. *)
Lemma check_shapes_outcomes (cd1 cd2 : R) :
  check_shapes cd1 cd2 = ret tt \/ check_shapes cd1 cd2 = raise (NameError "bmaj").
Proof.
  destruct (Rgt_dec ((cd1 - cd2) / cd1) 1.0001) as [H|H].
  - right. apply check_shapes_fail, H.
  - left. apply check_shapes_pass, H.
Qed.

(** Square pixels pass the test, whatever the beam. *)
Lemma check_shapes_square (cd : R) : check_shapes cd cd = ret tt.
Proof.
  apply check_shapes_pass. unfold Rminus, Rdiv.
  rewrite Rplus_opp_r, Rmult_0_l. lra.
Qed.

(** With [CDELT1] and [CDELT2] both positive and equal, [cd1 = -cd2] and
    the test stops on the name [bmaj]. *)
Example check_shapes_name_error : check_shapes (-1) 1 = raise (NameError "bmaj").
Proof.
  apply check_shapes_fail.
  replace ((-1 - 1) / -1)%R with 2%R by (field; lra). lra.
Qed.

(** ** The constructor of [radiomap] *)

Lemma idiv_ret (v : option Value) (d x : R) :
  idiv v d = ret x ->
  exists w, v = Some w /\
    match w with
    | VInt z => x = (IZR z / d)%R
    | VFloat r => x = (r / d)%R
    | VStr _ => False
    end.
Proof.
  destruct v as [[z|r|s]|]; simpl; intros H; try discriminate;
    injection H as <-; eexists; (split; [reflexivity|reflexivity]).
Qed.

Section ConstructorProperties.

Variable WCS : Header -> wcsprm.
Variable to_header : wcsprm -> Header.

(** The runs of the constructor that return a map. *)
Lemma radiomap_init_ret (fitsfile : list HDU) (rm : radiomap) :
  radiomap_init WCS to_header fitsfile = ret rm <->
  exists f bmaj bmin c0 cd2 fhead d,
    fitsfile !! 0%nat = Some f /\
    resolve_beam (header f) = ret (bmaj, bmin) /\
    cdelt (WCS (header f)) !! 0%nat = Some c0 /\
    cdelt (WCS (header f)) !! 1%nat = Some cd2 /\
    ~ ((- c0 - cd2) / (- c0) > 1.0001)%R /\
    idiv bmaj (- c0) = ret (rm_bmaj rm) /\
    idiv bmin cd2 = ret (rm_bmin rm) /\
    flatten WCS to_header fitsfile = ret (fhead, d) /\
    rm = mkRadiomap f (header f) (units_of (header f)) (rm_bmaj rm) (rm_bmin rm)
           (resolve_frq (header f))
           (beam_area (rm_bmaj rm) (rm_bmin rm)) fhead d.
Proof.
  unfold radiomap_init. split.
  - intros H.
    apply bind_ret in H as (f & Hf & H). apply getitem_ret in Hf.
    apply bind_ret in H as ([bmaj bmin] & Hb & H).
    apply bind_ret in H as (c0 & Hc0 & H). apply getitem_ret in Hc0.
    apply bind_ret in H as (cd2 & Hc1 & H). apply getitem_ret in Hc1.
    apply bind_ret in H as ([] & Hs & H).
    apply bind_ret in H as (x & Hx & H).
    apply bind_ret in H as (y & Hy & H).
    apply bind_ret in H as ([fhead d] & Hfl & H).
    injection H as <-. simpl.
    exists f, bmaj, bmin, c0, cd2, fhead, d.
    repeat split; try assumption.
    intros Hgt. rewrite (check_shapes_fail _ _ Hgt) in Hs. discriminate.
  - intros (f & bmaj & bmin & c0 & cd2 & fhead & d &
            Hf & Hb & Hc0 & Hc1 & Hs & Hx & Hy & Hfl & Hrm).
    apply getitem_ret in Hf, Hc0, Hc1.
    rewrite Hf. simpl. rewrite Hb. simpl. rewrite Hc0. simpl.
    rewrite Hc1. simpl. rewrite (check_shapes_pass _ _ Hs). simpl.
    rewrite Hx. simpl. rewrite Hy. simpl. rewrite Hfl. simpl.
    unfold ret. f_equal. symmetry. exact Hrm.
Qed.

(** A failure of the beam resolution is the failure of the constructor. *)
Lemma radiomap_init_beam_raise (fitsfile : list HDU) (f : HDU) (e : exn) :
  fitsfile !! 0%nat = Some f ->
  resolve_beam (header f) = raise e ->
  radiomap_init WCS to_header fitsfile = raise e.
Proof.
  intros Hf Hb. apply getitem_ret in Hf. unfold radiomap_init.
  rewrite Hf. simpl. rewrite Hb. reflexivity.
Qed.

(** C2. A map is returned only when both axes were resolved. When [BMAJ]
    and [RESOL1] are absent and no line of the history holds
    ["CLEAN BMAJ"], the constructor raises
    [RadioError("No beam information found")]. The beam resolution raises
    nothing else than this error, [IndexError] and [ValueError]. *)
Theorem beam_resolution_outcomes (fitsfile : list HDU) (f : HDU)
    (lines : list string) :
  fitsfile !! 0%nat = Some f ->
  header_values (header f) "HISTORY" = map VStr lines ->
  (forall rm, radiomap_init WCS to_header fitsfile = ret rm ->
              exists a b, resolve_beam (header f) = ret (Some a, Some b)) /\
  (header_get (header f) "BMAJ" = None ->
   header_get (header f) "RESOL1" = None ->
   Forall (fun l => str_in "CLEAN BMAJ" l = false) lines ->
   radiomap_init WCS to_header fitsfile = raise no_beam) /\
  (forall e, resolve_beam (header f) = raise e ->
             e = no_beam \/ e = IndexError \/ e = ValueError).
Proof.
  intros Hf Hh. split; [|split].
  - intros rm H.
    apply radiomap_init_ret in H
      as (f' & bmaj & bmin & c0 & cd2 & fhead & d &
          Hf' & Hb & _ & _ & _ & Hx & Hy & _).
    rewrite Hf in Hf'. injection Hf' as <-.
    apply idiv_ret in Hx as (a & -> & _).
    apply idiv_ret in Hy as (b & -> & _).
    exists a, b. exact Hb.
  - intros Ha Hr Hno. apply (radiomap_init_beam_raise _ f); [exact Hf|].
    rewrite (resolve_beam_history _ Ha Hr), Hh.
    rewrite (scan_history_no_marker lines) by exact Hno. reflexivity.
  - intros e H.
    destruct (header_get (header f) "BMAJ") as [a|] eqn:Ha.
    { rewrite (resolve_beam_direct _ a Ha) in H. discriminate. }
    destruct (header_get (header f) "RESOL1") as [a|] eqn:Hr.
    { rewrite (resolve_beam_resol _ a Ha Hr) in H. discriminate. }
    rewrite (resolve_beam_history _ Ha Hr), Hh in H.
    apply bind_raise in H as [H|([a b] & _ & H)].
    + apply scan_history_raise_text in H. tauto.
    + simpl in H. destruct (is_None a); [|discriminate].
      injection H as <-. tauto.
Qed.

(** C10. Without [BMAJ] and [RESOL1], when the constructor returns a map
    and [line] is the last line of the history that holds ["CLEAN BMAJ"],
    the beam of the map is the one of [line], in pixels, whatever the
    lines before it hold: the loop goes on after a match. *)
Theorem last_history_line_wins (fitsfile : list HDU) (f : HDU) (rm : radiomap)
    (pre post : list string) (line : string) :
  fitsfile !! 0%nat = Some f ->
  header_get (header f) "BMAJ" = None ->
  header_get (header f) "RESOL1" = None ->
  header_values (header f) "HISTORY" = map VStr (pre ++ line :: post) ->
  str_in "CLEAN BMAJ" line = true ->
  Forall (fun l => str_in "CLEAN BMAJ" l = false) post ->
  radiomap_init WCS to_header fitsfile = ret rm ->
  exists (b3 b5 : string) (x y c0 cd2 : R),
    split line !! 3%nat = Some b3 /\ float b3 = ret x /\
    split line !! 5%nat = Some b5 /\ float b5 = ret y /\
    resolve_beam (header f) = ret (Some (VFloat x), Some (VFloat y)) /\
    cdelt (WCS (header f)) !! 0%nat = Some c0 /\
    cdelt (WCS (header f)) !! 1%nat = Some cd2 /\
    rm_bmaj rm = (x / - c0)%R /\ rm_bmin rm = (y / cd2)%R.
Proof.
  intros Hf Ha Hr Hh Hm Hpost H.
  apply radiomap_init_ret in H
    as (f' & bmaj & bmin & c0 & cd2 & fhead & d &
        Hf' & Hb & Hc0 & Hc1 & _ & Hx & Hy & _).
  rewrite Hf in Hf'. injection Hf' as <-.
  pose proof Hb as Hb'.
  rewrite (resolve_beam_history _ Ha Hr), Hh in Hb'.
  apply bind_ret in Hb' as ([a b] & Hs & Hk).
  apply (scan_history_last pre post line) in Hs
    as (x & y & Hl & -> & ->); [|exact Hm|exact Hpost].
  simpl in Hk. injection Hk as <- <-.
  apply line_beam_ret in Hl as (b3 & b5 & H3 & Hfx & H5 & Hfy).
  simpl in Hx, Hy. injection Hx as Hx. injection Hy as Hy.
  exists b3, b5, x, y, c0, cd2. repeat split; auto.
Qed.

End ConstructorProperties.

(** C1. On non-square pixels ([cd1 = 1.0], [cd2 = 2.0]) with an elliptical
    beam ([bmaj = 1.0], [bmin = 2.0]) the constructor raises nothing: it
    returns a map, whose beam is 1 pixel by 1 pixel. And the test of the
    shapes raises a [RadioError] on no pixel scales at all. *)
Theorem nonsquare_elliptical_accepted :
  (exists rm : radiomap,
      radiomap_init keys_WCS keys_to_header fits_nonsquare = ret rm /\
      rm_bmaj rm = 1%R /\ rm_bmin rm = 1%R) /\
  (forall (cd1 cd2 : R) (msg : string),
      check_shapes cd1 cd2 <> raise (RadioError msg)).
Proof.
  split.
  - exists (mkRadiomap (mkHDU header_nonsquare (mkArray 0%nat [2%nat; 2%nat]))
              header_nonsquare (Some (VStr "JY/BEAM")) 1 1 (VInt 0)
              (beam_area 1 1) header_nonsquare (mkArray 0%nat [2%nat; 2%nat])).
    split; [|split; reflexivity].
    apply radiomap_init_ret.
    exists (mkHDU header_nonsquare (mkArray 0%nat [2%nat; 2%nat])),
      (Some (VFloat 1.0)), (Some (VFloat 2.0)), (-1.0)%R, 2.0%R,
      header_nonsquare, (mkArray 0%nat [2%nat; 2%nat]).
    repeat split; try reflexivity;
      replace (- (-1.0))%R with 1%R by lra.
    + lra.
    + simpl. unfold ret. f_equal. lra.
    + simpl. unfold ret. f_equal. lra.
  - intros cd1 cd2 msg H.
    destruct (check_shapes_outcomes cd1 cd2) as [Hs|Hs];
      rewrite Hs in H; discriminate.
Qed.

Lemma beam_resolution_outcomes_witness :
  radiomap_init keys_WCS keys_to_header
    [mkHDU header_no_beam (mkArray 0%nat [2%nat; 2%nat])] = raise no_beam.
Proof.
  apply (beam_resolution_outcomes keys_WCS keys_to_header
           [mkHDU header_no_beam (mkArray 0%nat [2%nat; 2%nat])]
           (mkHDU header_no_beam (mkArray 0%nat [2%nat; 2%nat]))
           ["AIPS IMAGR"]); try reflexivity.
  repeat constructor.
Defined.

(** C2, as stated, fails on [header_short_line]: the beam resolution, and
    with it the constructor, raises [IndexError]. *)
Lemma beam_resolution_index_error :
  resolve_beam header_short_line = raise IndexError /\
  ~ resolved_or_no_beam keys_WCS keys_to_header
      [mkHDU header_short_line (mkArray 0%nat [2%nat; 2%nat])].
Proof.
  assert (H : resolve_beam header_short_line = raise IndexError) by reflexivity.
  split; [exact H|].
  intros [(f & a & b & Hf & Hb)|Hr].
  - injection Hf as <-. simpl in Hb. rewrite H in Hb. discriminate.
  - rewrite (radiomap_init_beam_raise keys_WCS keys_to_header
               [mkHDU header_short_line (mkArray 0%nat [2%nat; 2%nat])]
               (mkHDU header_short_line (mkArray 0%nat [2%nat; 2%nat]))
               IndexError eq_refl H) in Hr.
    discriminate.
Qed.

(** A fourth word that is not a number stops the beam resolution with
    [ValueError]. *)
Example beam_resolution_value_error :
  resolve_beam [mkCard "NAXIS" (VInt 2);
                mkCard "HISTORY" (VStr "AIPS CLEAN BMAJ none BMIN none")]
  = raise ValueError.
Proof. reflexivity. Qed.

(** With [BMAJ] alone in the header the constructor stops on the division
    of [self.bmin], which is [None]. *)
Example major_axis_alone :
  radiomap_init keys_WCS keys_to_header
    [mkHDU [mkCard "NAXIS" (VInt 2); mkCard "CDELT1" (VFloat (-1.0));
            mkCard "CDELT2" (VFloat 1.0); mkCard "BMAJ" (VFloat 1.0)]
           (mkArray 0%nat [2%nat; 2%nat])] = raise TypeError.
Proof.
  unfold radiomap_init. simpl. unfold float_key. simpl.
  replace (- (-1.0))%R with 1.0%R by lra.
  rewrite check_shapes_square. reflexivity.
Qed.

Lemma radiomap_two_cleans_built :
  radiomap_init keys_WCS keys_to_header fits_two_cleans = ret radiomap_two_cleans.
Proof.
  apply radiomap_init_ret.
  exists (mkHDU header_two_cleans (mkArray 0%nat [2%nat; 2%nat])),
    (Some (VFloat (IZR 5 * powerRZ 10 (-3)))),
    (Some (VFloat (IZR 3 * powerRZ 10 (-3)))),
    (-1.0)%R, 1.0%R, header_two_cleans, (mkArray 0%nat [2%nat; 2%nat]).
  repeat split; try reflexivity.
  replace (- (-1.0))%R with 1%R by lra. lra.
Qed.

(** The beam of [fits_two_cleans] is the one of the second line of the
    history, not 0.5 by 0.25 as on the first. *)
Example radiomap_two_cleans_beam :
  rm_bmaj radiomap_two_cleans = 0.005%R /\ rm_bmin radiomap_two_cleans = 0.003%R.
Proof.
  simpl. replace (- (-1.0))%R with 1%R by lra. split; lra.
Qed.

Lemma last_history_line_wins_witness :
  exists (b3 b5 : string) (x y c0 cd2 : R),
    split "AIPS CLEAN BMAJ 0.005 BMIN 0.003" !! 3%nat = Some b3 /\
    float b3 = ret x /\
    split "AIPS CLEAN BMAJ 0.005 BMIN 0.003" !! 5%nat = Some b5 /\
    float b5 = ret y /\
    resolve_beam header_two_cleans = ret (Some (VFloat x), Some (VFloat y)) /\
    cdelt (keys_WCS header_two_cleans) !! 0%nat = Some c0 /\
    cdelt (keys_WCS header_two_cleans) !! 1%nat = Some cd2 /\
    rm_bmaj radiomap_two_cleans = (x / - c0)%R /\
    rm_bmin radiomap_two_cleans = (y / cd2)%R.
Proof.
  apply (last_history_line_wins keys_WCS keys_to_header fits_two_cleans
           (mkHDU header_two_cleans (mkArray 0%nat [2%nat; 2%nat]))
           radiomap_two_cleans
           ["AIPS CLEAN BMAJ 0.5 BMIN 0.25"] ["AIPS done"]
           "AIPS CLEAN BMAJ 0.005 BMIN 0.003"); try reflexivity.
  - repeat constructor.
  - exact radiomap_two_cleans_built.
Defined.

(** ** The plane [flatten] returns *)

Lemma size_of_pos_le (n : nat) (sh : list nat) :
  (0 < n)%nat -> (size_of sh <= size_of (n :: sh))%nat.
Proof. simpl. nia. Qed.

(** A valid multi-index lies inside the array. *)
Lemma offset_lt (sh idx : list nat) (o : nat) :
  offset sh idx = Some o -> (o < size_of sh)%nat.
Proof.
  revert idx o. induction sh as [|n sh IH]; intros [|i idx] o H;
    simpl in H; try discriminate.
  - injection H as <-. simpl. lia.
  - destruct (Nat.ltb_spec i n) as [Hi|Hi]; [|discriminate].
    destruct (offset sh idx) as [o'|] eqn:Ho; [|discriminate].
    injection H as <-. apply IH in Ho. simpl. nia.
Qed.

(** The shape of the first plane, and the position of its elements in the
    array it is taken from. *)
Lemma plane_shape_ret (k : nat) (sh sh' : list nat) :
  plane_shape k sh = ret sh' ->
  sh' = drop k sh /\ (2 <= length sh')%nat /\
  (size_of sh' <= size_of sh)%nat /\
  forall idx, offset sh (replicate k 0%nat ++ idx) = offset sh' idx.
Proof.
  revert sh. induction k as [|k IH]; intros sh H; cbn [plane_shape] in H.
  - destruct (Nat.leb_spec 2 (length sh)) as [Hl|Hl]; [|discriminate].
    injection H as <-. rewrite drop_0. auto.
  - destruct sh as [|n sh]; [discriminate|].
    destruct (Nat.eqb_spec n 0) as [Hn|Hn]; [discriminate|].
    apply IH in H as (-> & Hl & Hs & Ho).
    split; [reflexivity|]. split; [exact Hl|]. split.
    + etransitivity; [exact Hs|]. apply size_of_pos_le. lia.
    + intros idx. simpl.
      destruct (Nat.ltb_spec 0 n) as [_|Hlt]; [|lia].
      rewrite Ho. destruct (offset (drop k sh) idx); reflexivity.
Qed.

Lemma plane_shape_ok (k : nat) (sh : list nat) :
  (k + 2 <= length sh)%nat ->
  Forall (fun m => (0 < m)%nat) (take k sh) ->
  plane_shape k sh = ret (drop k sh).
Proof.
  revert sh. induction k as [|k IH]; intros sh Hl Hp; cbn [plane_shape].
  - destruct (Nat.leb_spec 2 (length sh)) as [_|Hlt]; [|lia].
    rewrite drop_0. reflexivity.
  - destruct sh as [|n sh]; [simpl in Hl; lia|].
    simpl in Hl, Hp. apply Forall_cons in Hp as [Hn Hp].
    destruct (Nat.eqb_spec n 0) as [H0|_]; [lia|].
    apply IH; [lia|exact Hp].
Qed.

(** The elements of the first plane are those of the array at index 0 of
    the leading axes. *)
Lemma first_plane_item (k : nat) (a d : ndarray) (st : Store) (idx : list nat) :
  first_plane k a = ret d ->
  item st d idx = item st a (replicate k 0%nat ++ idx).
Proof.
  unfold first_plane. intros H.
  apply bind_ret in H as (sh' & Hsh & H). unfold ret in H. injection H as <-.
  apply plane_shape_ret in Hsh as (_ & _ & Hs & Ho).
  unfold item, ravel. simpl. rewrite Ho.
  destruct (offset sh' idx) as [o|] eqn:Hoff; [|reflexivity].
  apply offset_lt in Hoff.
  rewrite !lookup_take_lt by lia. reflexivity.
Qed.

Section FlattenProperties.

Variable WCS : Header -> wcsprm.
Variable to_header : wcsprm -> Header.

Lemma getitem_lt {A : Type} (l : list A) (i : nat) :
  (i < length l)%nat -> exists a, getitem l i = ret a.
Proof.
  intros H. apply lookup_lt_is_Some_2 in H as [a Ha].
  exists a. apply getitem_ret, Ha.
Qed.

Lemma check_naxis_take (l : list R) :
  (2 <= length l)%nat -> check_naxis 2 (take 2 l) = ret (take 2 l).
Proof.
  intros H. unfold check_naxis. rewrite length_take_le by exact H. reflexivity.
Qed.

Lemma flatten_header_ok (hdr : Header) :
  two_axes (WCS hdr) -> exists hd, flatten_header WCS to_header hdr = ret hd.
Proof.
  intros (H1 & H2 & H3 & H4). unfold flatten_header.
  destruct (getitem_lt (crpix (WCS hdr)) 0) as [x0 ->]; [lia|].
  destruct (getitem_lt (crpix (WCS hdr)) 1) as [x1 ->]; [lia|].
  rewrite !check_naxis_take by assumption.
  destruct (getitem_lt (ctype (WCS hdr)) 0) as [t0 ->]; [lia|].
  destruct (getitem_lt (ctype (WCS hdr)) 1) as [t1 ->]; [lia|].
  simpl. eauto.
Qed.

(** C6. On an image with [NAXIS = 2] [flatten] returns the header and the
    data of the image as they are; with [NAXIS < 2] it raises
    [RadioError]. *)
Theorem flatten_two_axes (f : list HDU) (hdu : HDU) (n : Z) :
  f !! 0%nat = Some hdu ->
  header_get (header hdu) "NAXIS" = Some (VInt n) ->
  (n = 2%Z -> flatten WCS to_header f = ret (header hdu, data hdu)) /\
  ((n < 2)%Z ->
   flatten WCS to_header f = raise (RadioError "Can't make map from this")).
Proof.
  intros Hf Hn. apply getitem_ret in Hf.
  unfold flatten, header_getitem. rewrite Hf. simpl. rewrite Hn. simpl.
  split.
  - intros ->. reflexivity.
  - intros Hlt. destruct (Z.ltb_spec n 2) as [_|Hge]; [reflexivity|lia].
Qed.

(** C7. On an image with [NAXIS = n > 2], whose data has [n] axes, none of
    them empty before the last two, [flatten] returns the view of the data
    at index 0 of its first [n - 2] axes (the axes of the FITS image
    beyond the first two) and the full extent of its last two axes. *)
Theorem flatten_first_plane (f : list HDU) (hdu : HDU) (n : Z) :
  f !! 0%nat = Some hdu ->
  header_get (header hdu) "NAXIS" = Some (VInt n) ->
  (2 < n)%Z ->
  length (shape (data hdu)) = Z.to_nat n ->
  Forall (fun m => (0 < m)%nat) (take (Z.to_nat (n - 2)) (shape (data hdu))) ->
  two_axes (WCS (header hdu)) ->
  exists (hd : Header) (d : ndarray),
    flatten WCS to_header f = ret (hd, d) /\
    buf d = buf (data hdu) /\
    shape d = drop (Z.to_nat (n - 2)) (shape (data hdu)) /\
    length (shape d) = 2%nat /\
    forall (st : Store) (idx : list nat),
      item st d idx =
      item st (data hdu) (replicate (Z.to_nat (n - 2)) 0%nat ++ idx).
Proof.
  intros Hf Hn Hgt Hlen Hpos Hw. apply getitem_ret in Hf.
  destruct (flatten_header_ok (header hdu) Hw) as [hd Hhd].
  assert (Hp : first_plane (Z.to_nat (n - 2)) (data hdu) =
               ret (mkArray (buf (data hdu))
                      (drop (Z.to_nat (n - 2)) (shape (data hdu))))).
  { unfold first_plane. rewrite plane_shape_ok; [reflexivity|lia|exact Hpos]. }
  exists hd, (mkArray (buf (data hdu))
                (drop (Z.to_nat (n - 2)) (shape (data hdu)))).
  split; [|split; [reflexivity|split; [reflexivity|split]]].
  - unfold flatten, header_getitem. rewrite Hf. simpl. rewrite Hn. simpl.
    destruct (Z.ltb_spec n 2) as [Hlt|_]; [lia|].
    destruct (Z.eqb_spec n 2) as [Heq|_]; [lia|].
    rewrite Hhd. simpl. rewrite Hp. reflexivity.
  - simpl. rewrite length_drop. lia.
  - intros st idx. apply (first_plane_item _ _ _ st idx Hp).
Qed.

End FlattenProperties.

Lemma flatten_two_axes_witness :
  flatten keys_WCS keys_to_header fits_nonsquare =
  ret (header_nonsquare, mkArray 0%nat [2%nat; 2%nat]).
Proof.
  apply (proj1 (flatten_two_axes keys_WCS keys_to_header fits_nonsquare
                  (mkHDU header_nonsquare (mkArray 0%nat [2%nat; 2%nat])) 2
                  eq_refl eq_refl)).
  reflexivity.
Defined.

Lemma flatten_first_plane_witness :
  exists (hd : Header) (d : ndarray),
    flatten keys_WCS keys_to_header fits_cube = ret (hd, d) /\
    buf d = 0%nat /\
    shape d = [2%nat; 2%nat] /\
    length (shape d) = 2%nat /\
    forall (st : Store) (idx : list nat),
      item st d idx =
      item st (mkArray 0%nat [3%nat; 2%nat; 2%nat]) (0%nat :: idx).
Proof.
  apply (flatten_first_plane keys_WCS keys_to_header fits_cube
           (mkHDU header_cube (mkArray 0%nat [3%nat; 2%nat; 2%nat])) 3);
    try reflexivity.
  - simpl. constructor; [lia|constructor].
  - repeat split; simpl; lia.
Defined.

(** The plane of the cube holds the first four numbers of the buffer: its
    element [1, 0] is the element [0, 1, 0] of the cube. *)
Example cube_plane_items :
  item store_cube (mkArray 0%nat [2%nat; 2%nat]) [1%nat; 0%nat] = Some (INR 2) /\
  item store_cube (mkArray 0%nat [3%nat; 2%nat; 2%nat]) [0%nat; 1%nat; 0%nat]
  = Some (INR 2) /\
  item store_cube (mkArray 0%nat [3%nat; 2%nat; 2%nat]) [1%nat; 1%nat; 0%nat]
  = Some (INR 6).
Proof.
  unfold item, ravel, store_cube. cbn [buf shape offset size_of fold_right].
  rewrite lookup_singleton_eq. repeat split.
Qed.

(** The frequency of the cube is read on its third axis, and the header of
    the plane keeps [EQUINOX]. *)
Example cube_frq : resolve_frq header_cube = VFloat 1.4e9.
Proof. reflexivity. Qed.

Example cube_plane_header :
  exists hd d, flatten keys_WCS keys_to_header fits_cube = ret (hd, d) /\
               header_get hd "NAXIS" = Some (VInt 2) /\
               header_get hd "EQUINOX" = Some (VFloat 2000.0) /\
               header_get hd "BMAJ" = None.
Proof.
  unfold flatten. simpl. unfold float_key, str_key. simpl.
  destruct (Req_dec_T 2000.0 0) as [H|H]; [exfalso; lra|].
  eexists _, _. split; [reflexivity|]. repeat split.
Qed.

(** ** The measurement of a region *)

Lemma extract_ok (cond : list bool) (vs : list R) :
  (length cond <= length vs)%nat -> exists r, extract cond vs = ret r.
Proof.
  revert vs. induction cond as [|b cond IH]; intros vs Hl; simpl.
  - eauto.
  - destruct vs as [|v vs]; [simpl in Hl; lia|].
    destruct (IH vs) as [r Hr]; [simpl in Hl; lia|].
    rewrite Hr. simpl. eauto.
Qed.

Lemma size_of_vector (n : nat) : size_of [n] = n.
Proof. simpl. lia. Qed.

(** The buffers that exist before the call are not written. *)
Lemma np_extract_frame (mask : list bool) (a : ndarray) (st : Store) (l : loc) :
  is_Some (st !! l) -> (np_extract mask a st).2 !! l = st !! l.
Proof.
  intros Hl. unfold np_extract.
  destruct (extract mask (ravel st a)) as [e|vs]; simpl; [reflexivity|].
  apply lookup_insert_ne. intros <-.
  apply (is_fresh (dom st)). apply elem_of_dom, Hl.
Qed.

(** The new array holds the selected values, in a buffer that did not
    exist. *)
Lemma np_extract_ret (mask : list bool) (a d : ndarray) (st st1 : Store) :
  np_extract mask a st = (inr d, st1) ->
  exists vs, extract mask (ravel st a) = ret vs /\
             st !! buf d = None /\
             d = mkArray (buf d) [length vs] /\
             st1 = <[buf d:=vs]> st.
Proof.
  unfold np_extract.
  destruct (extract mask (ravel st a)) as [e|vs] eqn:He; intros H;
    [discriminate|].
  injection H as <- <-. exists vs. simpl.
  split; [reflexivity|]. split; [|auto].
  apply not_elem_of_dom, is_fresh.
Qed.

Lemma isub_frame (a : ndarray) (x : R) (st : Store) (l : loc) :
  l <> buf a -> isub a x st !! l = st !! l.
Proof. intros Hl. unfold isub. apply lookup_alter_ne. congruence. Qed.

Lemma isub_new (l : loc) (vs : list R) (x : R) (st : Store) :
  ravel (isub (mkArray l [length vs]) x (<[l:=vs]> st)) (mkArray l [length vs])
  = map (fun v => (v - x)%R) vs.
Proof.
  unfold ravel, isub. cbn [buf shape]. rewrite size_of_vector.
  rewrite lookup_alter_eq, lookup_insert_eq. simpl.
  rewrite firstn_all, drop_all, app_nil_r.
  apply take_ge. rewrite length_map. lia.
Qed.

Lemma applyregion_init_value (rm : radiomap) (region : Region)
    (extras : Extras) (st : Store) :
  (applyregion_init rm region extras st).1 =
  match extract (region (rm_f rm) (shape (rm_d rm))) (ravel st (rm_d rm)) with
  | inl e => inl e
  | inr vs => inr (measure rm region extras vs)
  end.
Proof.
  unfold applyregion_init, np_extract.
  destruct (extract _ (ravel st (rm_d rm))) as [e|vs]; [reflexivity|].
  cbn [fst]. rewrite isub_new. reflexivity.
Qed.

Lemma applyregion_init_frame (rm : radiomap) (region : Region)
    (extras : Extras) (st : Store) (l : loc) :
  is_Some (st !! l) -> (applyregion_init rm region extras st).2 !! l = st !! l.
Proof.
  intros Hl. unfold applyregion_init.
  destruct (np_extract _ (rm_d rm) st) as [[e|d] st1] eqn:Hx.
  - pose proof (np_extract_frame (region (rm_f rm) (shape (rm_d rm)))
                  (rm_d rm) st l Hl) as Hfr.
    rewrite Hx in Hfr. exact Hfr.
  - cbn [snd]. apply np_extract_ret in Hx as (vs & _ & Hnew & _ & ->).
    rewrite isub_frame.
    + apply lookup_insert_ne. intros <-. rewrite Hnew in Hl.
      destruct Hl as [? Hl]. discriminate.
    + intros ->. rewrite Hnew in Hl. destruct Hl as [? Hl]. discriminate.
Qed.

Lemma sqrt_16_4 : sqrt (INR 16 / 4) = 2%R.
Proof.
  replace (INR 16 / 4)%R with (2 * 2)%R by (simpl; lra).
  apply sqrt_square. lra.
Qed.

(** C8. With an off-source noise among the keyword arguments, and a mask
    that does not reach beyond the data, [applyregion] returns a record
    whose [error] is the noise times the square root of the number of
    pixels of the mask over the beam area; for a noise of 2.0, 16 pixels
    and a beam area of 4.0 it is 4.0. *)
Theorem error_propagation (rm : radiomap) (region : Region) (extras : Extras)
    (st : Store) (noise : R) :
  offsource extras = Some noise ->
  (length (region (rm_f rm) (shape (rm_d rm))) <= length (ravel st (rm_d rm)))%nat ->
  exists ar : applyregion,
    (applyregion_init rm region extras st).1 = inr ar /\
    pixels ar = count_true (region (rm_f rm) (shape (rm_d rm))) /\
    error ar = Some (noise * sqrt (INR (pixels ar) / rm_area rm))%R /\
    (noise = 2.0%R -> pixels ar = 16%nat -> rm_area rm = 4.0%R ->
     error ar = Some 4.0%R).
Proof.
  intros Hn Hl. rewrite applyregion_init_value.
  destruct (extract_ok _ _ Hl) as [vs ->].
  exists (measure rm region extras vs).
  split; [reflexivity|]. split; [reflexivity|].
  assert (He : error (measure rm region extras vs) =
               Some (noise * sqrt (INR (pixels (measure rm region extras vs))
                                   / rm_area rm))%R).
  { unfold measure. cbn [error pixels]. rewrite Hn. reflexivity. }
  split; [exact He|].
  intros -> Hp Ha. rewrite He, Hp, Ha. f_equal.
  replace 4.0%R with 4%R by lra. rewrite sqrt_16_4. lra.
Qed.

Lemma ravel_ones : ravel store_ones (mkArray 0%nat [4%nat; 4%nat]) = replicate 16 1%R.
Proof. unfold ravel, store_ones. cbn [buf]. rewrite lookup_singleton_eq. reflexivity. Qed.

Lemma error_propagation_witness :
  exists ar : applyregion,
    (applyregion_init radiomap_ones region_all (mkExtras None (Some 2.0%R))
       store_ones).1 = inr ar /\
    error ar = Some 4.0%R.
Proof.
  destruct (error_propagation radiomap_ones region_all
              (mkExtras None (Some 2.0%R)) store_ones 2.0 eq_refl)
    as (ar & Hr & Hp & _ & He).
  - cbn [radiomap_ones rm_d rm_f shape]. rewrite ravel_ones. simpl. lia.
  - exists ar. split; [exact Hr|].
    apply He; [reflexivity| |reflexivity]. rewrite Hp. reflexivity.
Defined.

(** C9. [applyregion] writes no buffer that exists before the call, so that
    the data of the map are after the call what they were before; and the
    record it returns depends on the store by the data of the map only. The
    header and the beam area of the map are fields of the value [rm], which
    the function only reads. *)
Theorem applyregion_pure (rm : radiomap) (region : Region) (extras : Extras)
    (st : Store) :
  (forall l : loc,
      is_Some (st !! l) ->
      (applyregion_init rm region extras st).2 !! l = st !! l) /\
  (is_Some (st !! buf (rm_d rm)) ->
   ravel (applyregion_init rm region extras st).2 (rm_d rm) = ravel st (rm_d rm)) /\
  (forall st' : Store,
      ravel st' (rm_d rm) = ravel st (rm_d rm) ->
      (applyregion_init rm region extras st').1 =
      (applyregion_init rm region extras st).1).
Proof.
  split; [|split].
  - intros l Hl. apply applyregion_init_frame, Hl.
  - intros Hl. unfold ravel. rewrite applyregion_init_frame by exact Hl.
    reflexivity.
  - intros st' Hr. rewrite !applyregion_init_value, Hr. reflexivity.
Qed.

(** On the map of ones, with a background of 0.5 to subtract, the data of
    the map are still ones after the call. *)
Lemma applyregion_pure_witness :
  ravel (applyregion_init radiomap_ones region_all
           (mkExtras (Some 0.5%R) None) store_ones).2
        (mkArray 0%nat [4%nat; 4%nat])
  = replicate 16 1%R.
Proof.
  rewrite <- ravel_ones.
  apply (proj1 (proj2 (applyregion_pure radiomap_ones region_all
                         (mkExtras (Some 0.5%R) None) store_ones))).
  unfold store_ones. cbn [radiomap_ones rm_d buf].
  rewrite lookup_singleton_eq. eauto.
Defined.

(** ** The beam area *)

Lemma PI_bounds : (3.1415 < PI < 3.1416)%R.
Proof.
  pose proof (PI_2_3_7_ineq 2) as [Hlo Hhi].
  unfold sum_f_R0, tg_alt, PI_2_3_7_tg, Ratan_seq in Hlo, Hhi.
  simpl in Hlo, Hhi.
  split; lra.
Qed.

Lemma sq_iter_exp (n : nat) (y : R) : sq_iter n (exp y) = exp (y * 2 ^ n).
Proof.
  induction n as [|n IH].
  - simpl. f_equal. lra.
  - unfold sq_iter in *. simpl. rewrite IH, <- exp_plus. f_equal. lra.
Qed.

Lemma sq_iter_mono (n : nat) (a b : R) :
  (0 <= a <= b)%R -> (0 <= sq_iter n a <= sq_iter n b)%R.
Proof.
  intros H. induction n as [|n IH]; [exact H|].
  unfold sq_iter in *. simpl. nra.
Qed.

Lemma scale_pos : (0 < IZR scale)%R.
Proof. apply IZR_lt. reflexivity. Qed.

(** Rounding down keeps a lower bound. *)
Lemma sq_down_sound (a : Z) (r : R) :
  (0 <= a)%Z -> (IZR a / IZR scale <= r)%R ->
  (0 <= sq_down a)%Z /\ (IZR (sq_down a) / IZR scale <= r * r)%R.
Proof.
  intros Ha Hr. unfold sq_down.
  assert (Hs : (0 < scale)%Z) by reflexivity.
  pose proof scale_pos as HS.
  split; [apply Z.div_pos; nia|].
  pose proof (Z.mul_div_le (a * a) scale Hs) as Hd.
  apply IZR_le in Hd. rewrite !mult_IZR in Hd.
  assert (Hq : (0 <= IZR a / IZR scale)%R).
  { apply Rmult_le_pos; [apply IZR_le; exact Ha|].
    left. apply Rinv_0_lt_compat, HS. }
  apply Rle_trans with ((IZR a / IZR scale) * (IZR a / IZR scale))%R; [|nra].
  apply Rmult_le_reg_r with (IZR scale); [exact HS|].
  unfold Rdiv. rewrite Rmult_assoc, Rinv_l, Rmult_1_r by lra.
  apply Rmult_le_reg_r with (IZR scale); [exact HS|].
  replace (IZR a * / IZR scale * (IZR a * / IZR scale) * IZR scale * IZR scale)%R
    with (IZR a * IZR a)%R by (field; lra).
  lra.
Qed.

Lemma sq_down_iter_sound (n : nat) (a : Z) (r : R) :
  (0 <= a)%Z -> (IZR a / IZR scale <= r)%R ->
  (0 <= Nat.iter n sq_down a)%Z /\
  (IZR (Nat.iter n sq_down a) / IZR scale <= sq_iter n r)%R.
Proof.
  intros Ha Hr. induction n as [|n [IH1 IH2]]; [auto|].
  unfold sq_iter in *. simpl. apply sq_down_sound; assumption.
Qed.

(** [exp x] is at least [(1 + x / 2^n)^(2^n)], computed from below. *)
Lemma exp_lower (n : nat) (a : Z) (x : R) :
  (0 <= a)%Z -> (IZR a / IZR scale <= 1 + x / 2 ^ n)%R ->
  (IZR (Nat.iter n sq_down a) / IZR scale <= exp x)%R.
Proof.
  intros Ha Hx. pose proof scale_pos as HS.
  assert (Hq : (0 <= IZR a / IZR scale)%R).
  { apply Rmult_le_pos; [apply IZR_le; exact Ha|].
    left. apply Rinv_0_lt_compat, HS. }
  destruct (sq_down_iter_sound n a (IZR a / IZR scale) Ha (Rle_refl _)) as [_ H1].
  apply Rle_trans with (1 := H1).
  replace (exp x) with (sq_iter n (exp (x / 2 ^ n))).
  - apply sq_iter_mono. split; [exact Hq|].
    apply Rle_trans with (1 := Hx). apply exp_ineq1_le.
  - rewrite sq_iter_exp. f_equal. field. apply pow_nonzero. lra.
Qed.

Lemma ln2_upper : (ln 2 < 0.6933)%R.
Proof.
  assert (H : (2 < exp 0.6933)%R).
  { apply Rlt_le_trans
      with (IZR (Nat.iter 12 sq_down 1153116651208200473%Z) / IZR scale)%R.
    - apply Rmult_lt_reg_r with (IZR scale); [exact scale_pos|].
      unfold Rdiv. rewrite Rmult_assoc, Rinv_l, Rmult_1_r
        by (apply Rgt_not_eq, scale_pos).
      rewrite <- mult_IZR. apply IZR_lt. vm_compute. reflexivity.
    - apply exp_lower; [vm_compute; discriminate|].
      unfold scale. simpl. lra. }
  rewrite <- (ln_exp 0.6933). apply ln_increasing; lra.
Qed.

Lemma ln2_lower : (0.693 < ln 2)%R.
Proof.
  assert (H : (/ 2 < exp (Ropp 0.693))%R).
  { apply Rlt_le_trans
      with (IZR (Nat.iter 12 sq_down 1152726442447986491%Z) / IZR scale)%R.
    - apply Rmult_lt_reg_r with (IZR scale); [exact scale_pos|].
      unfold Rdiv. rewrite Rmult_assoc, Rinv_l, Rmult_1_r
        by (apply Rgt_not_eq, scale_pos).
      apply Rmult_lt_reg_l with 2%R; [lra|].
      replace (2 * (/ 2 * IZR scale))%R with (IZR scale) by field.
      rewrite <- mult_IZR. apply IZR_lt. vm_compute. reflexivity.
    - apply exp_lower; [vm_compute; discriminate|].
      unfold scale. simpl. lra. }
  rewrite exp_Ropp in H.
  assert (He : (exp 0.693 < 2)%R).
  { pose proof (exp_pos 0.693) as Hp.
    pose proof (Rinv_r (exp 0.693) (Rgt_not_eq _ _ Hp)) as Hi.
    destruct (Rlt_le_dec (exp 0.693) 2) as [Hlt|Hge]; [exact Hlt|].
    exfalso. nra. }
  rewrite <- (ln_exp 0.693). apply ln_increasing; [apply exp_pos|exact He].
Qed.

(** The square of the constant is [8 ln 2]. *)
Lemma gfactor_sqr : (gfactor * gfactor = 8 * ln 2)%R.
Proof.
  unfold gfactor. replace 2.0%R with 2%R by lra.
  pose proof ln2_lower as Hl.
  replace (2 * sqrt (2 * ln 2) * (2 * sqrt (2 * ln 2)))%R
    with (4 * (sqrt (2 * ln 2) * sqrt (2 * ln 2)))%R by ring.
  rewrite sqrt_sqrt by lra. ring.
Qed.

Lemma beam_area_closed (bmaj bmin : R) :
  (beam_area bmaj bmin = 2 * PI * bmaj * bmin / (2 * sqrt (2 * ln 2)) ^ 2)%R.
Proof.
  unfold beam_area, gfactor. replace 2.0%R with 2%R by lra.
  simpl. rewrite Rmult_1_r. f_equal. ring.
Qed.

Lemma beam_area_4_2 : (beam_area 4 2 = 2 * PI / ln 2)%R.
Proof.
  unfold beam_area. rewrite gfactor_sqr. replace 2.0%R with 2%R by lra.
  pose proof ln2_lower as Hl. field. lra.
Qed.

Lemma beam_area_4_2_bounds : (9.06 < beam_area 4 2 < 9.07)%R.
Proof.
  rewrite beam_area_4_2.
  pose proof ln2_lower as Hl. pose proof ln2_upper as Hu.
  pose proof PI_bounds as [Hp1 Hp2].
  assert (Hpos : (0 < ln 2)%R) by lra.
  split.
  - apply Rmult_lt_reg_r with (ln 2); [exact Hpos|].
    unfold Rdiv. rewrite Rmult_assoc, Rinv_l, Rmult_1_r by lra. nra.
  - apply Rmult_lt_reg_r with (ln 2); [exact Hpos|].
    unfold Rdiv. rewrite Rmult_assoc, Rinv_l, Rmult_1_r by lra. nra.
Qed.

(** C5. The beam area is [2 pi bmaj bmin / g^2] with [g = 2 sqrt(2 ln 2)],
    on the beam of every map the constructor returns. For a beam of 4 by 2
    pixels it is [2 pi 4 2 / (2 sqrt(2 ln 2))^2], that is [2 pi / ln 2], a
    number between 9.06 and 9.07. *)
Theorem beam_area_formula :
  (forall bmaj bmin : R,
      beam_area bmaj bmin = 2 * PI * bmaj * bmin / (2 * sqrt (2 * ln 2)) ^ 2)%R /\
  (forall WCS to_header fitsfile rm,
      radiomap_init WCS to_header fitsfile = ret rm ->
      rm_area rm =
      2 * PI * rm_bmaj rm * rm_bmin rm / (2 * sqrt (2 * ln 2)) ^ 2)%R /\
  (beam_area 4 2 = 2 * PI * 4 * 2 / (2 * sqrt (2 * ln 2)) ^ 2)%R /\
  (beam_area 4 2 = 2 * PI / ln 2)%R /\
  (9.06 < beam_area 4 2 < 9.07)%R.
Proof.
  split; [exact beam_area_closed|]. split.
  - intros WCS to_header fitsfile rm H.
    apply radiomap_init_ret in H
      as (f & bmaj & bmin & c0 & cd2 & fhead & d & _ & _ & _ & _ & _ & _ & _ & _ & Hrm).
    rewrite Hrm at 1. cbn [rm_area]. apply beam_area_closed.
  - split; [apply beam_area_closed|].
    split; [exact beam_area_4_2|exact beam_area_4_2_bounds].
Qed.

Lemma beam_area_formula_witness :
  (rm_area radiomap_two_cleans =
   2 * PI * rm_bmaj radiomap_two_cleans * rm_bmin radiomap_two_cleans
   / (2 * sqrt (2 * ln 2)) ^ 2)%R.
Proof.
  apply (proj1 (proj2 beam_area_formula) keys_WCS keys_to_header fits_two_cleans).
  exact radiomap_two_cleans_built.
Defined.

(** C5, as stated, fails: the area of a beam of 4 by 2 pixels is not within
    1 of 10.666. *)
Lemma beam_area_not_10_666 :
  ~ ((beam_area 4 2 = 2 * PI * 4 * 2 / (2 * sqrt (2 * ln 2)) ^ 2)%R /\
     (Rabs (beam_area 4 2 - 10.666) <= 1)%R).
Proof.
  intros [_ H]. pose proof beam_area_4_2_bounds as [_ Hu].
  unfold Rabs in H. destruct (Rcase_abs (beam_area 4 2 - 10.666)); lra.
Qed.

(** * Part III: further properties of the code *)

(** ** The frequency *)

(** The loop passes the axes whose type is present and is not the
    frequency. *)
Lemma scan_ctype_run (prhd : Header) (n fuel i : nat) :
  (forall j, (j < n)%nat ->
             exists c, header_get prhd ("CTYPE" ++ str (i + j)) = Some c /\
                       is_FREQ c = false) ->
  scan_ctype (n + fuel) prhd i = scan_ctype fuel prhd (i + n).
Proof.
  revert i. induction n as [|n IH]; intros i Hall.
  - rewrite Nat.add_0_r. reflexivity.
  - cbn [Nat.add scan_ctype].
    destruct (Hall 0%nat) as (c & Hc & Hf); [lia|].
    rewrite Nat.add_0_r in Hc. rewrite Hc, Hf.
    rewrite IH.
    + f_equal. lia.
    + intros j Hj. replace (S i + j)%nat with (i + S j)%nat by lia.
      apply Hall. lia.
Qed.

(** With the types of the axes 1 to [n] present, the loop has rounds left
    for the axis [n + 1]. *)
Lemma scan_ctype_reaches (prhd : Header) (n : nat) :
  (forall j, (j < n)%nat ->
             exists c, header_get prhd ("CTYPE" ++ str (1 + j)) = Some c /\
                       is_FREQ c = false) ->
  scan_ctype (S (length prhd)) prhd 1 =
  scan_ctype (S (length prhd - n)) prhd (1 + n).
Proof.
  intros Hall.
  assert (Hn : (n <= length prhd)%nat).
  { apply (ctype_keywords_bound prhd n 1). intros j Hj.
    destruct (Hall j Hj) as (c & Hc & _). eauto. }
  replace (S (length prhd)) with (n + S (length prhd - n))%nat at 1 by lia.
  apply scan_ctype_run, Hall.
Qed.

(** X1. The frequency is the value of [RESTFRQ]; without it, of
    [RESTFREQ]; without both, of [FREQ]; and 0 when these are absent and
    the first axis has no type. It is the frequency of every map the
    constructor returns. *)
Theorem frequency_resolution_order (h : Header) :
  (forall v, header_get h "RESTFRQ" = Some v -> resolve_frq h = v) /\
  (forall v, header_get h "RESTFRQ" = None ->
             header_get h "RESTFREQ" = Some v -> resolve_frq h = v) /\
  (forall v, header_get h "RESTFRQ" = None ->
             header_get h "RESTFREQ" = None ->
             header_get h "FREQ" = Some v -> resolve_frq h = v) /\
  (header_get h "RESTFRQ" = None ->
   header_get h "RESTFREQ" = None ->
   header_get h "FREQ" = None ->
   header_get h "CTYPE1" = None -> resolve_frq h = VInt 0) /\
  (forall WCS to_header fitsfile f rm,
      fitsfile !! 0%nat = Some f -> header f = h ->
      radiomap_init WCS to_header fitsfile = ret rm ->
      rm_frq rm = resolve_frq h).
Proof.
  unfold resolve_frq. repeat split.
  - intros v ->. reflexivity.
  - intros v -> ->. reflexivity.
  - intros v -> -> ->. reflexivity.
  - intros -> -> -> H1. cbn [is_None scan_ctype].
    change ("CTYPE" ++ str 1)%string with "CTYPE1". rewrite H1. reflexivity.
  - intros WCS to_header fitsfile f rm Hf <- H.
    apply radiomap_init_ret in H
      as (f' & bmaj & bmin & c0 & cd2 & fhead & d & Hf' & _ & _ & _ & _ & _ & _ & _ & Hrm).
    rewrite Hf in Hf'. injection Hf' as <-.
    rewrite Hrm. reflexivity.
Qed.

Lemma frequency_resolution_order_witness :
  resolve_frq header_rest_freq = VFloat 1.6e9.
Proof.
  apply (proj1 (frequency_resolution_order header_rest_freq)). reflexivity.
Defined.

(** X2. Without [RESTFRQ], [RESTFREQ] and [FREQ], when the axes 1 to
    [i - 1] have a type that is not ["FREQ"]: if the type of axis [i] is
    ["FREQ"] the frequency is the value of [CRVALi], or 0 when that keyword
    is absent; if axis [i] has no type the frequency is 0, whatever the
    types of the axes after it. *)
Theorem frequency_axis_scan (h : Header) (n : nat) :
  header_get h "RESTFRQ" = None ->
  header_get h "RESTFREQ" = None ->
  header_get h "FREQ" = None ->
  (forall j, (j < n)%nat ->
             exists c, header_get h ("CTYPE" ++ str (1 + j)) = Some c /\
                       is_FREQ c = false) ->
  (header_get h ("CTYPE" ++ str (1 + n)) = Some (VStr "FREQ") ->
   resolve_frq h = match header_get h ("CRVAL" ++ str (1 + n)) with
                   | Some v => v
                   | None => VInt 0
                   end) /\
  (header_get h ("CTYPE" ++ str (1 + n)) = None -> resolve_frq h = VInt 0).
Proof.
  intros H1 H2 H3 Hall. unfold resolve_frq. rewrite H1, H2, H3.
  cbn [is_None]. rewrite (scan_ctype_reaches h n Hall).
  cbn [scan_ctype]. split; intros ->; reflexivity.
Qed.

Lemma frequency_axis_scan_witness :
  resolve_frq header_cube = VFloat 1.4e9 /\
  resolve_frq header_axis_gap = VInt 0.
Proof.
  split.
  - assert (Hc : forall j, (j < 2)%nat ->
                 exists c, header_get header_cube ("CTYPE" ++ str (1 + j)) = Some c /\
                           is_FREQ c = false).
    { intros [|[|j]] Hj; [eexists; split; reflexivity..|lia]. }
    exact (proj1 (frequency_axis_scan header_cube 2 eq_refl eq_refl eq_refl Hc)
             eq_refl).
  - assert (Hc : forall j, (j < 1)%nat ->
                 exists c, header_get header_axis_gap ("CTYPE" ++ str (1 + j)) = Some c /\
                           is_FREQ c = false).
    { intros [|j] Hj; [eexists; split; reflexivity|lia]. }
    exact (proj2 (frequency_axis_scan header_axis_gap 1 eq_refl eq_refl eq_refl Hc)
             eq_refl).
Defined.


(** ** The pixel scales the constructor accepts *)

Lemma ratio_gt (cd1 cd2 : R) :
  cd1 <> 0%R ->
  (((cd1 - cd2) / cd1 > 1.0001)%R <->
   (0 < cd1 /\ cd2 < - 0.0001 * cd1)%R \/ (cd1 < 0 /\ - 0.0001 * cd1 < cd2)%R).
Proof.
  intros H0.
  assert (Hq : ((cd1 - cd2) / cd1 * cd1 = cd1 - cd2)%R) by (field; exact H0).
  set (q := ((cd1 - cd2) / cd1)%R) in *.
  destruct (Rtotal_order cd1 0) as [Hn|[Hz|Hp]]; [|contradiction|].
  - split.
    + intros Hgt. right. split; [exact Hn|]. nra.
    + intros [[Hp _]|[_ Hc]]; [lra|]. nra.
  - split.
    + intros Hgt. left. split; [exact Hp|]. nra.
    + intros [[_ Hc]|[Hn _]]; [|lra]. nra.
Qed.

(** X4. The test of lines 106 and 107, for a pixel scale [cd1] that is not
    zero: it stops on the unbound name [bmaj] when [cd2] lies beyond
    [-0.0001 cd1] on the side away from [cd1], and passes otherwise. So
    with [cd1 > 0] every [cd2 >= -0.0001 cd1] passes, however far from
    [cd1]. The beam plays no part. *)
Theorem check_shapes_accepts (cd1 cd2 : R) :
  cd1 <> 0%R ->
  (check_shapes cd1 cd2 = raise (NameError "bmaj") <->
   (0 < cd1 /\ cd2 < - 0.0001 * cd1)%R \/ (cd1 < 0 /\ - 0.0001 * cd1 < cd2)%R) /\
  (check_shapes cd1 cd2 = ret tt <->
   (0 < cd1 /\ - 0.0001 * cd1 <= cd2)%R \/ (cd1 < 0 /\ cd2 <= - 0.0001 * cd1)%R).
Proof.
  intros H0. pose proof (ratio_gt cd1 cd2 H0) as Hr.
  destruct (Rgt_dec ((cd1 - cd2) / cd1) 1.0001) as [Hgt|Hle].
  - rewrite (check_shapes_fail _ _ Hgt). split.
    + split; [intros _; apply Hr, Hgt|reflexivity].
    + split; [discriminate|].
      apply Hr in Hgt. intros [[? ?]|[? ?]]; destruct Hgt as [[? ?]|[? ?]]; lra.
  - rewrite (check_shapes_pass _ _ Hle). split.
    + split; [discriminate|]. intros H. apply Hr in H. contradiction.
    + split; [|reflexivity]. intros _.
      destruct (Rtotal_order cd1 0) as [Hn|[Hz|Hp]]; [|contradiction|].
      * right. split; [exact Hn|].
        destruct (Rle_lt_dec cd2 (- 0.0001 * cd1)) as [?|Hc]; [assumption|].
        exfalso. apply Hle, Hr. right. split; assumption.
      * left. split; [exact Hp|].
        destruct (Rle_lt_dec (- 0.0001 * cd1) cd2) as [?|Hc]; [assumption|].
        exfalso. apply Hle, Hr. left. split; assumption.
Qed.

Lemma check_shapes_accepts_witness :
  check_shapes 1 1000 = ret tt /\ check_shapes (-1) 1 = raise (NameError "bmaj").
Proof.
  split.
  - apply (proj2 (check_shapes_accepts 1 1000 ltac:(lra))). left. lra.
  - apply (proj1 (check_shapes_accepts (-1) 1 ltac:(lra))). right. lra.
Defined.

Section MoreConstructorProperties.

Variable WCS : Header -> wcsprm.
Variable to_header : wcsprm -> Header.

(** X5. When the beam is resolved and the scales of the two axes are both
    positive in the header ([CDELT1 > 0], so that [cd1 < 0], and
    [CDELT2 > 0.0001 CDELT1]), the constructor stops with
    [NameError] on [bmaj]: no map with a first axis that grows with the
    pixel index is returned. *)
Theorem positive_cdelt_name_error (fitsfile : list HDU) (f : HDU)
    (bmaj bmin : option Value) (c0 cd2 : R) :
  fitsfile !! 0%nat = Some f ->
  resolve_beam (header f) = ret (bmaj, bmin) ->
  cdelt (WCS (header f)) !! 0%nat = Some c0 ->
  cdelt (WCS (header f)) !! 1%nat = Some cd2 ->
  (0 < c0)%R -> (0.0001 * c0 < cd2)%R ->
  radiomap_init WCS to_header fitsfile = raise (NameError "bmaj").
Proof.
  intros Hf Hb Hc0 Hc1 Hp Hc. apply getitem_ret in Hf, Hc0, Hc1.
  unfold radiomap_init. rewrite Hf. simpl. rewrite Hb. simpl.
  rewrite Hc0. simpl. rewrite Hc1. simpl.
  rewrite check_shapes_fail; [reflexivity|].
  apply ratio_gt; [lra|]. right. lra.
Qed.

Lemma flatten_header_raise (hdr : Header) (e : exn) :
  flatten_header WCS to_header hdr = raise e -> e = IndexError \/ e = ValueError.
Proof.
  unfold flatten_header. intros H.
  apply bind_raise in H as [H|(x0 & _ & H)]; [apply getitem_raise in H; tauto|].
  apply bind_raise in H as [H|(x1 & _ & H)]; [apply getitem_raise in H; tauto|].
  apply bind_raise in H as [H|(cd & _ & H)].
  { unfold check_naxis in H. destruct (Nat.eqb _ 2); [discriminate|].
    injection H as <-. tauto. }
  apply bind_raise in H as [H|(cv & _ & H)].
  { unfold check_naxis in H. destruct (Nat.eqb _ 2); [discriminate|].
    injection H as <-. tauto. }
  apply bind_raise in H as [H|(t0 & _ & H)]; [apply getitem_raise in H; tauto|].
  apply bind_raise in H as [H|(t1 & _ & H)]; [apply getitem_raise in H; tauto|].
  discriminate.
Qed.

Lemma plane_shape_raise (k : nat) (sh : list nat) (e : exn) :
  plane_shape k sh = raise e -> e = IndexError.
Proof.
  revert sh. induction k as [|k IH]; intros sh H; cbn [plane_shape] in H.
  - destruct (Nat.leb 2 (length sh)); [discriminate|]. injection H as <-. reflexivity.
  - destruct sh as [|n sh]; [injection H as <-; reflexivity|].
    destruct (Nat.eqb n 0); [injection H as <-; reflexivity|]. eapply IH, H.
Qed.

(** [flatten], case by case. *)
Lemma flatten_cases (f : list HDU) :
  flatten WCS to_header f =
  match f !! 0%nat with
  | None => raise IndexError
  | Some hdu =>
      match header_get (header hdu) "NAXIS" with
      | None => raise (KeyError "NAXIS")
      | Some naxis =>
          if value_lt_2 naxis then raise (RadioError "Can't make map from this")
          else if value_eq_2 naxis then ret (header hdu, data hdu)
          else
            bind (flatten_header WCS to_header (header hdu)) (fun hd =>
            bind (plane_count naxis) (fun k =>
            bind (first_plane k (data hdu)) (fun d => ret (hd, d))))
      end
  end.
Proof.
  unfold flatten, getitem, header_getitem.
  destruct (f !! 0%nat) as [hdu|]; [|reflexivity]. simpl.
  destruct (header_get (header hdu) "NAXIS"); reflexivity.
Qed.

Lemma flatten_planes_raise (hdu : HDU) (naxis : Value) (e : exn) :
  bind (flatten_header WCS to_header (header hdu)) (fun hd =>
  bind (plane_count naxis) (fun k =>
  bind (first_plane k (data hdu)) (fun d => ret (hd, d)))) = raise e ->
  e = IndexError \/ e = ValueError \/ e = TypeError.
Proof.
  intros H.
  apply bind_raise in H as [H|(hd & _ & H)].
  { apply flatten_header_raise in H. tauto. }
  apply bind_raise in H as [H|(k & _ & H)].
  { destruct naxis; simpl in H; try discriminate; injection H as <-; tauto. }
  apply bind_raise in H as [H|(d & _ & H)]; [|discriminate].
  unfold first_plane in H.
  apply bind_raise in H as [H|(sh & _ & H)]; [|discriminate].
  apply plane_shape_raise in H. tauto.
Qed.

(** X6. The exceptions of [flatten]: [KeyError] exactly when the first
    header has no [NAXIS], and then on that keyword; [RadioError] exactly
    when [NAXIS] is smaller than 2, with the message of line 15;
    [IndexError] on a file without any header; never a [NameError]. *)
Theorem flatten_exceptions (f : list HDU) :
  (forall k, flatten WCS to_header f = raise (KeyError k) <->
             k = "NAXIS" /\
             exists hdu, f !! 0%nat = Some hdu /\
                         header_get (header hdu) "NAXIS" = None) /\
  (forall msg, flatten WCS to_header f = raise (RadioError msg) <->
               msg = "Can't make map from this" /\
               exists hdu naxis, f !! 0%nat = Some hdu /\
                 header_get (header hdu) "NAXIS" = Some naxis /\
                 value_lt_2 naxis = true) /\
  (f = [] -> flatten WCS to_header f = raise IndexError) /\
  (forall name, flatten WCS to_header f <> raise (NameError name)).
Proof.
  split; [|split; [|split]].
  - intros k. rewrite flatten_cases. split.
    + intros H.
      destruct (f !! 0%nat) as [hdu|]; [|discriminate].
      destruct (header_get (header hdu) "NAXIS") as [naxis|] eqn:Hn.
      * destruct (value_lt_2 naxis); [discriminate|].
        destruct (value_eq_2 naxis); [discriminate|].
        apply flatten_planes_raise in H as [H|[H|H]]; discriminate.
      * injection H as <-. eauto.
    + intros (-> & hdu & -> & ->). reflexivity.
  - intros msg. rewrite flatten_cases. split.
    + intros H.
      destruct (f !! 0%nat) as [hdu|]; [|discriminate].
      destruct (header_get (header hdu) "NAXIS") as [naxis|] eqn:Hn;
        [|discriminate].
      destruct (value_lt_2 naxis) eqn:Hlt.
      * injection H as <-. eauto 10.
      * destruct (value_eq_2 naxis); [discriminate|].
        apply flatten_planes_raise in H as [H|[H|H]]; discriminate.
    + intros (-> & hdu & naxis & -> & -> & ->). reflexivity.
  - intros ->. reflexivity.
  - intros name H. rewrite flatten_cases in H.
    destruct (f !! 0%nat) as [hdu|]; [|discriminate].
    destruct (header_get (header hdu) "NAXIS") as [naxis|]; [|discriminate].
    destruct (value_lt_2 naxis); [discriminate|].
    destruct (value_eq_2 naxis); [discriminate|].
    apply flatten_planes_raise in H as [H|[H|H]]; discriminate.
Qed.



End MoreConstructorProperties.

Lemma positive_cdelt_name_error_witness :
  radiomap_init keys_WCS keys_to_header fits_positive_cdelt = raise (NameError "bmaj").
Proof.
  apply (positive_cdelt_name_error keys_WCS keys_to_header fits_positive_cdelt
           (mkHDU header_positive_cdelt (mkArray 0%nat [2%nat; 2%nat]))
           (Some (VFloat 4.0)) (Some (VFloat 2.0)) 1.0 1.0);
    try reflexivity; lra.
Defined.

Lemma flatten_exceptions_witness :
  flatten keys_WCS keys_to_header [mkHDU [] (mkArray 0%nat [2%nat; 2%nat])]
  = raise (KeyError "NAXIS").
Proof.
  apply (proj1 (flatten_exceptions keys_WCS keys_to_header
                  [mkHDU [] (mkArray 0%nat [2%nat; 2%nat])])).
  split; [reflexivity|]. eexists. split; reflexivity.
Defined.

(** ** The header and the view [flatten] returns *)

Lemma header_get_set_eq (h : Header) (k : string) (v : Value) :
  header_get (header_set h k v) k = Some v.
Proof.
  induction h as [|c h IH]; simpl.
  - rewrite String.eqb_refl. reflexivity.
  - destruct (String.eqb_spec (keyword c) k) as [Hk|Hk]; simpl.
    + rewrite String.eqb_refl. reflexivity.
    + destruct (String.eqb_spec (keyword c) k); [contradiction|exact IH].
Qed.

Lemma header_get_set_ne (h : Header) (k k' : string) (v : Value) :
  k <> k' -> header_get (header_set h k v) k' = header_get h k'.
Proof.
  intros Hne. induction h as [|c h IH]; simpl.
  - destruct (String.eqb_spec k k'); [contradiction|reflexivity].
  - destruct (String.eqb_spec (keyword c) k) as [Hk|Hk]; simpl.
    + destruct (String.eqb_spec k k'); [contradiction|].
      destruct (String.eqb_spec (keyword c) k'); [congruence|reflexivity].
    + destruct (String.eqb_spec (keyword c) k'); [reflexivity|exact IH].
Qed.

Lemma take_2_lookup {A : Type} (l : list A) (a b : A) :
  l !! 0%nat = Some a -> l !! 1%nat = Some b -> take 2 l = [a; b].
Proof.
  destruct l as [|x [|y l]]; simpl; intros Ha Hb; try discriminate.
  injection Ha as <-. injection Hb as <-. reflexivity.
Qed.

(** Lines 32 to 35 for one keyword. *)
Lemma copy_card_get (orig hd : Header) (k k' : string) :
  header_get
    (match header_get orig k with
     | Some v => if truthy (header_get orig k) then header_set hd k v else hd
     | None => hd
     end) k' =
  if String.eqb k k' && truthy (header_get orig k) then header_get orig k
  else header_get hd k'.
Proof.
  destruct (header_get orig k) as [v|] eqn:Hv.
  - destruct (truthy (Some v)).
    + rewrite andb_true_r. destruct (String.eqb_spec k k') as [<-|Hne].
      * apply header_get_set_eq.
      * apply header_get_set_ne, Hne.
    + rewrite andb_false_r. reflexivity.
  - simpl. rewrite andb_false_r. reflexivity.
Qed.

Section MoreFlattenProperties.

Variable WCS : Header -> wcsprm.
Variable to_header : wcsprm -> Header.

(** The header of the plane: the first two axes of the coordinate system,
    written as cards, with [NAXIS] and the copies of [EQUINOX] and
    [EPOCH]. *)
Lemma flatten_header_ret (hdr hd : Header) :
  flatten_header WCS to_header hdr = ret hd ->
  exists wn : wcsprm,
    crpix wn = take 2 (crpix (WCS hdr)) /\
    cdelt wn = take 2 (cdelt (WCS hdr)) /\
    crval wn = take 2 (crval (WCS hdr)) /\
    ctype wn = take 2 (ctype (WCS hdr)) /\
    forall k, header_get hd k =
      if (String.eqb "EPOCH" k && truthy (header_get hdr "EPOCH"))%bool
      then header_get hdr "EPOCH"
      else if (String.eqb "EQUINOX" k && truthy (header_get hdr "EQUINOX"))%bool
      then header_get hdr "EQUINOX"
      else if String.eqb "NAXIS" k then Some (VInt 2)
      else header_get (to_header wn) k.
Proof.
  unfold flatten_header. intros H.
  apply bind_ret in H as (x0 & H0 & H). apply getitem_ret in H0.
  apply bind_ret in H as (x1 & H1 & H). apply getitem_ret in H1.
  apply bind_ret in H as (cd & Hcd & H).
  apply bind_ret in H as (cv & Hcv & H).
  apply bind_ret in H as (t0 & Ht0 & H). apply getitem_ret in Ht0.
  apply bind_ret in H as (t1 & Ht1 & H). apply getitem_ret in Ht1.
  unfold check_naxis in Hcd, Hcv.
  destruct (Nat.eqb (length (take 2 (cdelt (WCS hdr)))) 2); [|discriminate].
  destruct (Nat.eqb (length (take 2 (crval (WCS hdr)))) 2); [|discriminate].
  injection Hcd as <-. injection Hcv as <-. injection H as <-.
  eexists (mkWcs _ _ _ _). cbn [crpix cdelt crval ctype].
  split; [symmetry; apply (take_2_lookup _ _ _ H0 H1)|].
  split; [reflexivity|]. split; [reflexivity|].
  split; [symmetry; apply (take_2_lookup _ _ _ Ht0 Ht1)|].
  intros k. cbn [fold_left].
  rewrite copy_card_get. destruct (String.eqb "EPOCH" k && _)%bool; [reflexivity|].
  rewrite copy_card_get. destruct (String.eqb "EQUINOX" k && _)%bool; [reflexivity|].
  destruct (String.eqb_spec "NAXIS" k) as [<-|Hne].
  - apply header_get_set_eq.
  - apply header_get_set_ne, Hne.
Qed.

(** X8. The header [flatten] builds for an image of more than two axes:
    its cards are those [to_header] writes for the first two axes of the
    coordinate system of the image, except that [NAXIS] is 2 and that
    [EQUINOX] and [EPOCH] have the value of the image when it is there and
    true. An [EQUINOX] or [EPOCH] equal to 0 is not copied, and no other
    card of the image is. *)
Theorem flatten_plane_header (f : list HDU) (hdu : HDU) (n : Z)
    (hd : Header) (d : ndarray) :
  f !! 0%nat = Some hdu ->
  header_get (header hdu) "NAXIS" = Some (VInt n) ->
  (2 < n)%Z ->
  flatten WCS to_header f = ret (hd, d) ->
  exists wn : wcsprm,
    crpix wn = take 2 (crpix (WCS (header hdu))) /\
    cdelt wn = take 2 (cdelt (WCS (header hdu))) /\
    crval wn = take 2 (crval (WCS (header hdu))) /\
    ctype wn = take 2 (ctype (WCS (header hdu))) /\
    header_get hd "NAXIS" = Some (VInt 2) /\
    (forall k, k = "EQUINOX" \/ k = "EPOCH" ->
               header_get hd k =
               if truthy (header_get (header hdu) k)
               then header_get (header hdu) k
               else header_get (to_header wn) k) /\
    (forall k, k <> "NAXIS" -> k <> "EQUINOX" -> k <> "EPOCH" ->
               header_get hd k = header_get (to_header wn) k).
Proof.
  intros Hf Hn Hgt H. rewrite flatten_cases, Hf, Hn in H.
  cbn [value_lt_2 value_eq_2] in H.
  destruct (Z.ltb_spec n 2); [lia|]. destruct (Z.eqb_spec n 2); [lia|].
  apply bind_ret in H as (hd' & Hhd & H).
  apply bind_ret in H as (k & _ & H).
  apply bind_ret in H as (d' & _ & H). injection H as <- <-.
  apply flatten_header_ret in Hhd as (wn & H1 & H2 & H3 & H4 & Hget).
  exists wn. repeat (split; [assumption|]). split; [|split].
  - rewrite Hget. reflexivity.
  - intros k' [-> | ->]; rewrite Hget; cbn [String.eqb Ascii.eqb Bool.eqb andb].
    + destruct (truthy (header_get (header hdu) "EQUINOX")); reflexivity.
    + destruct (truthy (header_get (header hdu) "EPOCH")); reflexivity.
  - intros k' N1 N2 N3. rewrite Hget.
    destruct (String.eqb_spec "EPOCH" k'); [congruence|].
    destruct (String.eqb_spec "EQUINOX" k'); [congruence|].
    destruct (String.eqb_spec "NAXIS" k'); [congruence|]. reflexivity.
Qed.

(** X9. Whatever the number of axes, the array [flatten] returns is a view
    on the buffer of the data of the image, not a copy: it has the same
    buffer, and its values are the first values of the data. *)
Theorem flatten_shares_buffer (f : list HDU) (hd : Header) (d : ndarray) :
  flatten WCS to_header f = ret (hd, d) ->
  exists hdu : HDU,
    f !! 0%nat = Some hdu /\
    buf d = buf (data hdu) /\
    (size_of (shape d) <= size_of (shape (data hdu)))%nat /\
    forall st : Store,
      ravel st d = take (size_of (shape d)) (ravel st (data hdu)).
Proof.
  intros H. rewrite flatten_cases in H.
  destruct (f !! 0%nat) as [hdu|]; [|discriminate]. exists hdu.
  split; [reflexivity|].
  destruct (header_get (header hdu) "NAXIS") as [naxis|]; [|discriminate].
  destruct (value_lt_2 naxis); [discriminate|].
  destruct (value_eq_2 naxis).
  - injection H as <- <-. split; [reflexivity|]. split; [lia|].
    intros st. unfold ravel. rewrite take_take, Nat.min_id. reflexivity.
  - apply bind_ret in H as (hd' & _ & H).
    apply bind_ret in H as (k & _ & H).
    apply bind_ret in H as (d' & Hd & H). injection H as <- <-.
    unfold first_plane in Hd. apply bind_ret in Hd as (sh & Hsh & Hd).
    unfold ret in Hd. injection Hd as <-.
    apply plane_shape_ret in Hsh as (_ & _ & Hs & _).
    split; [reflexivity|]. split; [exact Hs|].
    intros st. unfold ravel. cbn [buf shape].
    rewrite take_take, Nat.min_l by exact Hs. reflexivity.
Qed.

(** X10. [flatten] is idempotent: on the image it returns it returns the
    same header and the same array. *)
Theorem flatten_idempotent (f : list HDU) (hd : Header) (d : ndarray) :
  flatten WCS to_header f = ret (hd, d) ->
  flatten WCS to_header [mkHDU hd d] = ret (hd, d).
Proof.
  intros H. rewrite flatten_cases in H. rewrite flatten_cases.
  change ([mkHDU hd d] !! 0%nat) with (Some (mkHDU hd d)). cbn [header data].
  destruct (f !! 0%nat) as [hdu|]; [|discriminate].
  destruct (header_get (header hdu) "NAXIS") as [naxis|] eqn:Hn; [|discriminate].
  destruct (value_lt_2 naxis) eqn:Hlt; [discriminate|].
  destruct (value_eq_2 naxis) eqn:Heq.
  - injection H as <- <-. rewrite Hn, Hlt, Heq. reflexivity.
  - apply bind_ret in H as (hd' & Hhd & H).
    apply bind_ret in H as (k & _ & H).
    apply bind_ret in H as (d' & _ & H). injection H as <- <-.
    apply flatten_header_ret in Hhd as (wn & _ & _ & _ & _ & Hget).
    rewrite Hget. reflexivity.
Qed.

End MoreFlattenProperties.

Lemma flatten_plane_header_witness :
  exists hd d,
    flatten keys_WCS keys_to_header fits_cube = ret (hd, d) /\
    header_get hd "NAXIS" = Some (VInt 2) /\
    header_get hd "CDELT1" = Some (VFloat (-1.0)) /\
    header_get hd "EQUINOX" = Some (VFloat 2000.0) /\
    header_get hd "BMAJ" = None.
Proof.
  destruct (flatten keys_WCS keys_to_header fits_cube) as [e|[hd d]] eqn:Hfl.
  { exfalso. destruct cube_plane_header as (hd' & d' & H & _).
    rewrite Hfl in H. discriminate. }
  exists hd, d. split; [reflexivity|].
  destruct (flatten_plane_header keys_WCS keys_to_header fits_cube
              (mkHDU header_cube (mkArray 0%nat [3%nat; 2%nat; 2%nat])) 3 hd d
              eq_refl eq_refl eq_refl Hfl)
    as (wn & H1 & H2 & H3 & H4 & Hn & He & Ho).
  split; [exact Hn|].
  assert (Hwn : wn = mkWcs [0%R; 0%R] [(-1.0)%R; 1.0%R] [0%R; 0%R]
                       ["RA---SIN"; "DEC--SIN"]).
  { destruct wn as [a b c t]. cbn [crpix cdelt crval ctype] in *.
    rewrite H1, H2, H3, H4. reflexivity. }
  split; [|split].
  - rewrite Ho by discriminate. rewrite Hwn. reflexivity.
  - rewrite He by (left; reflexivity).
    cbn [header header_cube header_get String.eqb Ascii.eqb Bool.eqb keyword value truthy].
    destruct (Req_dec_T 2000.0 0) as [E|E]; [exfalso; lra|reflexivity].
  - rewrite Ho by discriminate. rewrite Hwn. reflexivity.
Defined.

Lemma flatten_shares_buffer_witness :
  exists hdu : HDU,
    fits_nonsquare !! 0%nat = Some hdu /\
    buf (mkArray 0%nat [2%nat; 2%nat]) = buf (data hdu) /\
    (size_of [2%nat; 2%nat] <= size_of (shape (data hdu)))%nat /\
    forall st : Store,
      ravel st (mkArray 0%nat [2%nat; 2%nat]) =
      take (size_of [2%nat; 2%nat]) (ravel st (data hdu)).
Proof.
  apply (flatten_shares_buffer keys_WCS keys_to_header fits_nonsquare
           header_nonsquare (mkArray 0%nat [2%nat; 2%nat])).
  reflexivity.
Defined.

Lemma flatten_idempotent_witness :
  flatten keys_WCS keys_to_header
    [mkHDU header_nonsquare (mkArray 0%nat [2%nat; 2%nat])]
  = ret (header_nonsquare, mkArray 0%nat [2%nat; 2%nat]).
Proof.
  apply (flatten_idempotent keys_WCS keys_to_header fits_nonsquare). reflexivity.
Defined.

(** ** The statistics of a region *)

Lemma count_true_cons (b : bool) (mask : list bool) :
  count_true (b :: mask) = if b then S (count_true mask) else count_true mask.
Proof. unfold count_true. destruct b; reflexivity. Qed.

(** The mask selects as many values as it has [True] entries. *)
Lemma extract_length (cond : list bool) (vs r : list R) :
  extract cond vs = ret r -> length r = count_true cond.
Proof.
  revert vs r. induction cond as [|b cond IH]; intros vs r H.
  - injection H as <-. reflexivity.
  - rewrite count_true_cons. destruct vs as [|v vs]; cbn [extract] in H.
    + destruct b; [discriminate|]. apply (IH [] r H).
    + apply bind_ret in H as (r' & Hr & H). apply IH in Hr.
      destruct b; injection H as <-; simpl; congruence.
Qed.

Lemma extract_none (cond : list bool) (vs : list R) :
  count_true cond = 0%nat -> extract cond vs = ret [].
Proof.
  revert vs. induction cond as [|b cond IH]; intros vs H; [reflexivity|].
  rewrite count_true_cons in H. destruct b; [discriminate|].
  destruct vs as [|v vs]; cbn [extract]; rewrite (IH _ H); reflexivity.
Qed.

Lemma np_sum_shift (vs : list R) (b : R) :
  np_sum (map (fun v => (v - b)%R) vs) = (np_sum vs - b * INR (length vs))%R.
Proof.
  induction vs as [|v vs IH].
  - simpl. lra.
  - change (np_sum (map (fun v0 => (v0 - b)%R) (v :: vs)))
      with ((v - b) + np_sum (map (fun v0 => (v0 - b)%R) vs))%R.
    rewrite IH. change (length (v :: vs)) with (S (length vs)).
    rewrite S_INR. simpl. lra.
Qed.

Lemma np_mean_shift (vs : list R) (b : R) :
  vs <> [] ->
  np_mean (map (fun v => (v - b)%R) vs) = (np_mean vs - b)%R.
Proof.
  intros Hne. unfold np_mean. rewrite np_sum_shift, length_map.
  assert (Hn : INR (length vs) <> 0%R).
  { apply not_0_INR. destruct vs; [contradiction|discriminate]. }
  field. exact Hn.
Qed.

(** The standard deviation does not see a shift of the values. *)
Lemma np_std_shift (vs : list R) (b : R) :
  np_std (map (fun v => (v - b)%R) vs) = np_std vs.
Proof.
  destruct vs as [|v0 vs0]; [reflexivity|].
  set (vs := v0 :: vs0). unfold np_std.
  rewrite np_mean_shift by discriminate.
  rewrite map_map. f_equal. unfold np_mean. rewrite !length_map. f_equal.
  f_equal. apply map_ext. intros v. ring.
Qed.

Lemma map_sub_0 (vs : list R) : map (fun v => (v - 0)%R) vs = vs.
Proof.
  rewrite <- (map_id vs) at 2. apply map_ext. intros v. apply Rminus_0_r.
Qed.

Lemma np_sum_replicate (n : nat) (c : R) :
  np_sum (replicate n c) = (INR n * c)%R.
Proof.
  induction n as [|n IH]; [simpl; lra|].
  change (np_sum (replicate (S n) c)) with (c + np_sum (replicate n c))%R.
  rewrite IH, S_INR. lra.
Qed.

Lemma map_replicate (f : R -> R) (n : nat) (c : R) :
  map f (replicate n c) = replicate n (f c).
Proof. induction n as [|n IH]; [reflexivity|]. simpl. rewrite IH. reflexivity. Qed.

Lemma np_mean_replicate (n : nat) (c : R) :
  (0 < n)%nat -> np_mean (replicate n c) = c.
Proof.
  intros Hn. unfold np_mean. rewrite np_sum_replicate, length_replicate.
  field. apply not_0_INR. lia.
Qed.

Lemma np_std_replicate (n : nat) (c : R) :
  (0 < n)%nat -> np_std (replicate n c) = 0%R.
Proof.
  intros Hn. unfold np_std. rewrite np_mean_replicate by exact Hn.
  rewrite map_replicate. rewrite np_mean_replicate by exact Hn.
  replace ((c - c) * (c - c))%R with 0%R by ring. apply sqrt_0.
Qed.

(** X11. The background level: with a background [b] to subtract, the
    number of pixels, the standard deviation and the error are what they
    are without it; the flux is lower by [b] times the number of pixels
    over the beam area; and, on a region with at least one pixel, the mean
    is lower by [b]. *)
Theorem background_shift (rm : radiomap) (region : Region) (st : Store)
    (b : R) (noise : option R) (ar0 : applyregion) :
  (applyregion_init rm region (mkExtras None noise) st).1 = inr ar0 ->
  exists ar : applyregion,
    (applyregion_init rm region (mkExtras (Some b) noise) st).1 = inr ar /\
    pixels ar = pixels ar0 /\
    rms ar = rms ar0 /\
    error ar = error ar0 /\
    flux ar = (flux ar0 - b * INR (pixels ar0) / rm_area rm)%R /\
    ((0 < pixels ar0)%nat -> mean ar = (mean ar0 - b)%R).
Proof.
  rewrite !applyregion_init_value.
  destruct (extract _ (ravel st (rm_d rm))) as [e|vs] eqn:Hx; [discriminate|].
  intros H. injection H as <-.
  exists (measure rm region (mkExtras (Some b) noise) vs).
  split; [reflexivity|].
  apply extract_length in Hx.
  unfold measure. cbn [background offsource pixels rms flux mean error].
  rewrite map_sub_0, <- Hx.
  split; [reflexivity|]. split; [apply np_std_shift|]. split; [reflexivity|].
  split.
  - rewrite np_sum_shift. unfold Rdiv. ring.
  - intros Hp. apply np_mean_shift. destruct vs; [simpl in Hp; lia|discriminate].
Qed.

Lemma ravel_ones_map : ravel store_ones (rm_d radiomap_ones) = replicate 16 1%R.
Proof.
  unfold ravel, store_ones. cbn [radiomap_ones rm_d buf].
  rewrite lookup_singleton_eq. reflexivity.
Qed.

Lemma measure_ones (extras : Extras) :
  (applyregion_init radiomap_ones region_all extras store_ones).1 =
  inr (measure radiomap_ones region_all extras (replicate 16 1%R)).
Proof. rewrite applyregion_init_value, ravel_ones_map. reflexivity. Qed.

Lemma background_shift_witness :
  exists ar : applyregion,
    (applyregion_init radiomap_ones region_all (mkExtras (Some 0.5%R) None)
       store_ones).1 = inr ar /\
    rms ar = rms (measure radiomap_ones region_all (mkExtras None None)
                    (replicate 16 1%R)).
Proof.
  destruct (background_shift radiomap_ones region_all store_ones 0.5 None _
              (measure_ones (mkExtras None None)))
    as (ar & Hr & _ & Hrms & _).
  exists ar. split; assumption.
Defined.

(** X12. Flux and beam area: on a map whose beam area is [k] times larger,
    [k > 0], the flux of a region is [k] times smaller and its error
    [sqrt k] times smaller, while the number of pixels, the mean and the
    standard deviation are the same. *)
Theorem flux_inverse_area (rm : radiomap) (region : Region) (extras : Extras)
    (st : Store) (k : R) (ar : applyregion) :
  (0 < k)%R -> (0 < rm_area rm)%R ->
  (applyregion_init rm region extras st).1 = inr ar ->
  exists ar' : applyregion,
    (applyregion_init (with_area rm (k * rm_area rm)) region extras st).1
    = inr ar' /\
    flux ar' = (flux ar / k)%R /\
    (forall x, error ar = Some x -> error ar' = Some (x / sqrt k)%R) /\
    pixels ar' = pixels ar /\ mean ar' = mean ar /\ rms ar' = rms ar.
Proof.
  intros Hk Ha. rewrite !applyregion_init_value. cbn [with_area rm_f rm_d].
  destruct (extract _ (ravel st (rm_d rm))) as [e|vs]; [discriminate|].
  intros H. injection H as <-.
  eexists. split; [reflexivity|].
  unfold measure. cbn [with_area rm_f rm_d rm_area pixels rms flux mean error].
  split; [field; lra|]. split; [|auto].
  intros x Hx. destruct (offsource extras) as [noise|]; [|discriminate].
  injection Hx as <-. f_equal.
  set (n := INR (count_true (region (rm_f rm) (shape (rm_d rm))))).
  replace (n / (k * rm_area rm))%R with (n / rm_area rm / k)%R by (field; lra).
  rewrite sqrt_div_alt by exact Hk. unfold Rdiv. ring.
Qed.

Lemma flux_inverse_area_witness :
  exists ar' : applyregion,
    (applyregion_init (with_area radiomap_ones (2 * rm_area radiomap_ones))
       region_all (mkExtras None None) store_ones).1 = inr ar' /\
    flux ar' = (flux (measure radiomap_ones region_all (mkExtras None None)
                        (replicate 16 1%R)) / 2)%R.
Proof.
  destruct (flux_inverse_area radiomap_ones region_all (mkExtras None None)
              store_ones 2 _ ltac:(lra) ltac:(simpl; lra)
              (measure_ones (mkExtras None None)))
    as (ar' & Hr & Hf & _).
  exists ar'. split; assumption.
Defined.

(** X13. A region whose pixels all have the value [c], at least one of
    them: the standard deviation is 0, the mean is [c] less the background
    and the flux is the number of pixels times that, over the beam area. *)
Theorem constant_region (rm : radiomap) (region : Region) (extras : Extras)
    (st : Store) (n : nat) (c : R) :
  (0 < n)%nat ->
  extract (region (rm_f rm) (shape (rm_d rm))) (ravel st (rm_d rm))
  = ret (replicate n c) ->
  exists ar : applyregion,
    (applyregion_init rm region extras st).1 = inr ar /\
    pixels ar = n /\
    rms ar = 0%R /\
    mean ar = (c - match background extras with Some b => b | None => 0 end)%R /\
    flux ar = (INR n * (c - match background extras with Some b => b | None => 0 end)
               / rm_area rm)%R.
Proof.
  intros Hn Hx. rewrite applyregion_init_value, Hx.
  eexists. split; [reflexivity|].
  pose proof (extract_length _ _ _ Hx) as Hl. rewrite length_replicate in Hl.
  unfold measure. cbn [pixels rms flux mean error].
  rewrite map_replicate.
  split; [symmetry; exact Hl|].
  split; [apply np_std_replicate, Hn|].
  split; [apply np_mean_replicate, Hn|].
  rewrite np_sum_replicate. reflexivity.
Qed.

Lemma constant_region_witness :
  exists ar : applyregion,
    (applyregion_init radiomap_ones region_all (mkExtras (Some 0.5%R) None)
       store_ones).1 = inr ar /\
    pixels ar = 16%nat /\ rms ar = 0%R /\ mean ar = (1 - 0.5)%R /\
    flux ar = (INR 16 * (1 - 0.5) / 4.0)%R.
Proof.
  apply (constant_region radiomap_ones region_all (mkExtras (Some 0.5%R) None)
           store_ones 16 1).
  - lia.
  - rewrite ravel_ones_map. reflexivity.
Defined.

(** X14. A mask without any [True] entry, on a map whose beam area is not
    zero: [applyregion] raises nothing, whatever the length of the mask,
    and finds no pixel, a flux of 0 and, with an off-source noise, an error
    of 0. *)
Theorem empty_region (rm : radiomap) (region : Region) (extras : Extras)
    (st : Store) :
  count_true (region (rm_f rm) (shape (rm_d rm))) = 0%nat ->
  rm_area rm <> 0%R ->
  exists ar : applyregion,
    (applyregion_init rm region extras st).1 = inr ar /\
    pixels ar = 0%nat /\
    flux ar = 0%R /\
    (forall noise, offsource extras = Some noise -> error ar = Some 0%R).
Proof.
  intros Hc Ha. rewrite applyregion_init_value, (extract_none _ _ Hc).
  eexists. split; [reflexivity|].
  unfold measure. cbn [pixels rms flux mean error map np_sum fold_right].
  rewrite Hc. split; [reflexivity|]. split; [unfold Rdiv; ring|].
  intros noise ->. f_equal. unfold Rdiv. simpl INR.
  rewrite Rmult_0_l, sqrt_0. ring.
Qed.

Lemma empty_region_witness :
  exists ar : applyregion,
    (applyregion_init radiomap_ones region_none (mkExtras None (Some 2.0%R))
       store_ones).1 = inr ar /\
    pixels ar = 0%nat /\ flux ar = 0%R /\
    (forall noise, Some 2.0%R = Some noise -> error ar = Some 0%R).
Proof.
  apply (empty_region radiomap_ones region_none (mkExtras None (Some 2.0%R))
           store_ones).
  - reflexivity.
  - simpl. lra.
Defined.

(** ** [printflux] and the command line *)



(** The object [applyregion] returns, and the frame of its store. *)
Lemma applyregion_init_ret (rm : radiomap) (region : Region)
    (extras : Extras) (st st1 : Store) (fg : applyregion) :
  applyregion_init rm region extras st = (inr fg, st1) ->
  (exists vs,
      extract (region (rm_f rm) (shape (rm_d rm))) (ravel st (rm_d rm)) = ret vs /\
      fg = measure rm region extras vs) /\
  forall l, is_Some (st !! l) -> st1 !! l = st !! l.
Proof.
  intros H. split.
  - pose proof (f_equal fst H) as Hv. rewrite applyregion_init_value in Hv.
    cbn [fst] in Hv.
    destruct (extract _ (ravel st (rm_d rm))) as [e|vs]; [discriminate|].
    injection Hv as <-. eauto.
  - intros l Hl. pose proof (applyregion_init_frame rm region extras st l Hl) as Hf.
    rewrite H in Hf. exact Hf.
Qed.

Lemma applyregion_init_any_frame (rm : radiomap) (region : Region)
    (extras : Extras) (st st1 : Store) (r : Result applyregion) :
  applyregion_init rm region extras st = (r, st1) ->
  forall l, is_Some (st !! l) -> st1 !! l = st !! l.
Proof.
  intros H l Hl.
  pose proof (applyregion_init_frame rm region extras st l Hl) as Hf.
  rewrite H in Hf. exact Hf.
Qed.


Lemma printflux_error_set (rm : radiomap) (region : Region) (noise : R)
    (bgsub : bool) (background : R) (vs : list R) :
  error (measure rm region (printflux_extras noise bgsub background) vs) =
  Some (noise * sqrt (INR (count_true (region (rm_f rm) (shape (rm_d rm))))
                      / rm_area rm))%R.
Proof. destruct bgsub; reflexivity. Qed.

Lemma printflux_ret (filename : string) (rm : radiomap) (region : Region)
    (noise : R) (bgsub : bool) (background : R) (label : Item)
    (st st1 : Store) (out out1 : list Item) :
  printflux filename rm region noise bgsub background label st out
  = (inr tt, st1, out1) ->
  exists vs x,
    extract (region (rm_f rm) (shape (rm_d rm))) (ravel st (rm_d rm)) = ret vs /\
    fmt_g (rm_frq rm) = ret x /\
    out1 = out ++ printflux_items filename rm region noise label x
             (flux (measure rm region (printflux_extras noise bgsub background) vs)).
Proof.
  unfold printflux. intros H.
  destruct (applyregion_init rm region _ st) as [[e|fg] st'] eqn:Ha;
    [discriminate|].
  destruct (fmt_g (rm_frq rm)) as [e|x] eqn:Hx; [discriminate|].
  apply applyregion_init_ret in Ha as [(vs & Hvs & ->) _].
  injection H as <- <-. exists vs, x. split; [exact Hvs|]. split; [reflexivity|].
  unfold printflux_items.
  assert (Ho : offsource (printflux_extras noise bgsub background) = Some noise)
    by (destruct bgsub; reflexivity).
  rewrite Ho.
  destruct (nonzero noise); cbn [from_option]; rewrite <- !app_assoc; reflexivity.
Qed.

Lemma printflux_any (filename : string) (rm : radiomap) (region : Region)
    (noise : R) (bgsub : bool) (background : R) (label : Item)
    (st st1 : Store) (out out1 : list Item) (r : Result unit) :
  printflux filename rm region noise bgsub background label st out
  = (r, st1, out1) ->
  (forall l, is_Some (st !! l) -> st1 !! l = st !! l) /\
  exists items, out1 = out ++ items.
Proof.
  unfold printflux. intros H.
  destruct (applyregion_init rm region _ st) as [[e|fg] st'] eqn:Ha.
  - injection H as <- <- <-. split; [apply (applyregion_init_any_frame _ _ _ _ _ _ Ha)|].
    exists []. rewrite app_nil_r. reflexivity.
  - pose proof (applyregion_init_any_frame _ _ _ _ _ _ Ha) as Hf.
    destruct (fmt_g (rm_frq rm)) as [e|x]; injection H as <- <- <-;
      (split; [exact Hf|]).
    + eauto.
    + destruct (nonzero noise); rewrite <- !app_assoc; eauto.
Qed.


Section CommandLineProperties.

Variable WCS : Header -> wcsprm.
Variable to_header : wcsprm -> Header.
Variable fits_open : string -> list HDU.
Variable Shape : Type.
Variable region_open : string -> Header -> list Shape.
Variable get_mask : list Shape -> Region.

Lemma print_each_any (filename : string) (rm : radiomap) (noise : R)
    (bgsub : bool) (background : R) (fg_ir : list Shape) (n : nat)
    (st st1 : Store) (out out1 : list Item) (r : Result unit) :
  print_each Shape get_mask filename rm noise bgsub background fg_ir n st out
  = (r, st1, out1) ->
  (forall l, is_Some (st !! l) -> st1 !! l = st !! l) /\
  exists items, out1 = out ++ items.
Proof.
  revert n st out. induction fg_ir as [|reg rest IH]; intros n st out H.
  - injection H as <- <- <-. split; [auto|]. exists []. rewrite app_nil_r.
    reflexivity.
  - cbn [print_each] in H.
    destruct (printflux filename rm (get_mask [reg]) noise bgsub background
                (INum (n + 1)) st out) as [[[e|[]] st'] out'] eqn:Hp.
    + injection H as <- <- <-. apply (printflux_any _ _ _ _ _ _ _ _ _ _ _ _ Hp).
    + apply printflux_any in Hp as [Hf (items & ->)].
      apply IH in H as [Hf' (items' & ->)]. split.
      * intros l Hl. rewrite Hf'; [auto|]. rewrite (Hf l Hl). exact Hl.
      * exists (items ++ items'). rewrite app_assoc. reflexivity.
Qed.


(** The lines of the loop over the shapes: one per shape, labelled from
    [n + 1] on. *)
Lemma print_each_ret (filename : string) (rm : radiomap) (noise : R)
    (bgsub : bool) (background : R) (fg_ir : list Shape) (n : nat)
    (st st1 : Store) (out out1 : list Item) :
  print_each Shape get_mask filename rm noise bgsub background fg_ir n st out
  = (inr tt, st1, out1) ->
  exists (x : R) (rows : list (list Item)),
    (fg_ir <> [] -> fmt_g (rm_frq rm) = ret x) /\
    out1 = out ++ concat rows /\
    length rows = length fg_ir /\
    forall i row, rows !! i = Some row ->
                  is_row filename (INum (n + i + 1)) x row.
Proof.
  revert n st out. induction fg_ir as [|reg rest IH]; intros n st out H.
  - injection H as <- <-. exists 0%R, []. simpl. rewrite app_nil_r.
    repeat split; [contradiction|]. intros i row Hi. discriminate.
  - cbn [print_each] in H.
    destruct (printflux filename rm (get_mask [reg]) noise bgsub background
                (INum (n + 1)) st out) as [[[e|[]] st'] out'] eqn:Hp;
      [discriminate|].
    apply printflux_ret in Hp as (vs & x & _ & Hx & ->).
    apply IH in H as (x' & rows & Hx' & -> & Hlen & Hrows).
    exists x, (printflux_items filename rm (get_mask [reg]) noise (INum (n + 1)) x
                 (flux (measure rm (get_mask [reg])
                          (printflux_extras noise bgsub background) vs)) :: rows).
    split; [intros _; exact Hx|]. split.
    { cbn [concat]. rewrite app_assoc. reflexivity. }
    split; [simpl; rewrite Hlen; reflexivity|].
    intros [|i] row Hi.
    + injection Hi as <-. rewrite Nat.add_0_r. unfold is_row, printflux_items.
      eexists _, _. split; [reflexivity|].
      destruct (nonzero noise); eauto.
    + replace (n + S i + 1)%nat with (S n + i + 1)%nat by lia.
      assert (Hxx : x' = x).
      { destruct rest as [|reg' rest']; [simpl in Hlen; destruct rows; discriminate|].
        specialize (Hx' ltac:(discriminate)). rewrite Hx in Hx'.
        injection Hx' as ->. reflexivity. }
      rewrite <- Hxx. apply Hrows. exact Hi.
Qed.

Lemma background_of_any (args : Args) (rm : radiomap) (st st1 : Store)
    (r : Result (R * R)) :
  background_of Shape region_open get_mask args rm st = (r, st1) ->
  forall l, is_Some (st !! l) -> st1 !! l = st !! l.
Proof.
  unfold background_of. intros H.
  destruct (negb (String.eqb (bgr args) "")).
  - destruct (applyregion_init rm _ (mkExtras None None) st)
      as [[e|bg] st'] eqn:Ha; injection H as _ <-;
      apply (applyregion_init_any_frame _ _ _ _ _ _ Ha).
  - destruct (bgsub args); injection H as _ <-; auto.
Qed.


Lemma background_of_ret (args : Args) (rm : radiomap) (st st1 : Store)
    (noise background : R) :
  background_of Shape region_open get_mask args rm st
  = (inr (noise, background), st1) ->
  (bgr args = "" /\ bgsub args = false /\ noise = 0%R /\ background = 0%R /\
   st1 = st) \/
  (bgr args <> "" /\
   exists vs,
     extract (get_mask (region_open (bgr args) (rm_fhead rm))
                (rm_f rm) (shape (rm_d rm)))
             (ravel st (rm_d rm)) = ret vs /\
     noise = np_std vs /\ background = np_mean vs).
Proof.
  unfold background_of. intros H.
  destruct (String.eqb_spec (bgr args) "") as [Hb|Hb]; cbn [negb] in H.
  - destruct (bgsub args) eqn:Hs; [discriminate|]. injection H as <- <- <-.
    left. auto.
  - destruct (applyregion_init rm _ (mkExtras None None) st)
      as [[e'|bg] st'] eqn:Ha; [discriminate|].
    injection H as <- <- _. right. split; [exact Hb|].
    apply applyregion_init_ret in Ha as [(vs & Hvs & ->) _].
    exists vs. split; [exact Hvs|].
    unfold measure. cbn [background rms mean]. rewrite map_sub_0. auto.
Qed.

End CommandLineProperties.


Lemma nonzero_0 : nonzero 0 = false.
Proof. unfold nonzero. destruct (Req_dec_T 0 0); [reflexivity|contradiction]. Qed.


Section PipelineProperties.

Variable WCS : Header -> wcsprm.
Variable to_header : wcsprm -> Header.
Variable fits_open : string -> list HDU.
Variable Shape : Type.
Variable region_open : string -> Header -> list Shape.
Variable get_mask : list Shape -> Region.






Lemma process_file_any (args : Args) (filename : string)
    (st st1 : Store) (out out1 : list Item) (r : Result unit) :
  process_file WCS to_header fits_open Shape region_open get_mask
    args filename st out = (r, st1, out1) ->
  (forall l, is_Some (st !! l) -> st1 !! l = st !! l) /\
  exists items, out1 = out ++ items.
Proof.
  unfold process_file. intros H.
  destruct (radiomap_init WCS to_header (fits_open filename)) as [e|rm].
  { injection H as <- <- <-. split; [auto|]. exists []. rewrite app_nil_r.
    reflexivity. }
  destruct (background_of Shape region_open get_mask args rm st)
    as [[e|[noise bg]] st'] eqn:Hb.
  - injection H as <- <- <-. split; [apply (background_of_any _ _ _ _ _ _ _ _ Hb)|].
    exists []. rewrite app_nil_r. reflexivity.
  - pose proof (background_of_any _ _ _ _ _ _ _ _ Hb) as Hf.
    destruct (indiv args); cbv zeta iota in H.
    + apply print_each_any in H as [Hf' Hout]. split; [|exact Hout].
      intros l Hl. rewrite Hf'; [auto|]. rewrite (Hf l Hl). exact Hl.
    + apply printflux_any in H as [Hf' Hout]. split; [|exact Hout].
      intros l Hl. rewrite Hf'; [auto|]. rewrite (Hf l Hl). exact Hl.
Qed.

(** X19. Whatever its outcome, the program writes no buffer that exists
    when it starts, so that the data of every file are at the end what
    they were; and it only adds to the output: the lines printed for the
    files before an exception stay. *)
Theorem main_loop_frame (args : Args) (filenames : list string)
    (st st1 : Store) (out out1 : list Item) (r : Result unit) :
  main_loop WCS to_header fits_open Shape region_open get_mask
    args filenames st out = (r, st1, out1) ->
  (forall l, is_Some (st !! l) -> st1 !! l = st !! l) /\
  exists items, out1 = out ++ items.
Proof.
  revert st out. induction filenames as [|fn rest IH]; intros st out H.
  - injection H as <- <- <-. split; [auto|]. exists []. rewrite app_nil_r.
    reflexivity.
  - cbn [main_loop] in H.
    destruct (process_file WCS to_header fits_open Shape region_open get_mask
                args fn st out) as [[[e|[]] st'] out'] eqn:Hp.
    + injection H as <- <- <-. apply (process_file_any _ _ _ _ _ _ _ Hp).
    + apply process_file_any in Hp as [Hf (items & ->)].
      apply IH in H as [Hf' (items' & ->)]. split.
      * intros l Hl. rewrite Hf'; [auto|]. rewrite (Hf l Hl). exact Hl.
      * exists (items ++ items'). rewrite app_assoc. reflexivity.
Qed.

End PipelineProperties.
Lemma radiomap_fits_ones_built (filename : string) :
  radiomap_init keys_WCS keys_to_header (open_ones filename) = ret radiomap_fits_ones.
Proof.
  apply radiomap_init_ret.
  eexists _, (Some (VFloat 4.0)), (Some (VFloat 2.0)), (-1.0)%R, 1.0%R, _, _.
  repeat split; try reflexivity.
  replace (- (-1.0))%R with 1%R by lra. lra.
Qed.







(** On the map of ones the background is constant: its standard deviation
    is 0 and no error is printed, though a background region is given. *)
Example constant_background_no_error : nonzero (np_std (replicate 16 1%R)) = false.
Proof. rewrite np_std_replicate by lia. exact nonzero_0. Qed.

Lemma main_loop_frame_witness :
  (forall l, is_Some (store_ones !! l) ->
             (main_loop keys_WCS keys_to_header open_ones unit open_shapes
                mask_all args_indiv ["a.fits"; "b.fits"] store_ones []).1.2 !! l
             = store_ones !! l) /\
  exists items : list Item,
    (main_loop keys_WCS keys_to_header open_ones unit open_shapes
       mask_all args_indiv ["a.fits"; "b.fits"] store_ones []).2 = [] ++ items.
Proof.
  apply (main_loop_frame keys_WCS keys_to_header open_ones unit open_shapes
           mask_all args_indiv ["a.fits"; "b.fits"] store_ones
           (main_loop keys_WCS keys_to_header open_ones unit open_shapes
              mask_all args_indiv ["a.fits"; "b.fits"] store_ones []).1.2
           []
           (main_loop keys_WCS keys_to_header open_ones unit open_shapes
              mask_all args_indiv ["a.fits"; "b.fits"] store_ones []).2
           (main_loop keys_WCS keys_to_header open_ones unit open_shapes
              mask_all args_indiv ["a.fits"; "b.fits"] store_ones []).1.1).
  destruct (main_loop keys_WCS keys_to_header open_ones unit open_shapes
              mask_all args_indiv ["a.fits"; "b.fits"] store_ones [])
    as [[r st1] out1].
  reflexivity.
Defined.

(** ** The map the constructor returns *)

Lemma gfactor_sqr_pos : (0 < gfactor * gfactor)%R.
Proof. rewrite gfactor_sqr. pose proof ln2_lower. lra. Qed.

Section MapProperties.

Variable WCS : Header -> wcsprm.
Variable to_header : wcsprm -> Header.

(** X20. The map the constructor returns keeps the first HDU of the file
    and its header, and its data are a view on the buffer of the data of
    the file: the header and the array of the map are what [flatten]
    returns on the file. *)
Theorem radiomap_shares_data (fitsfile : list HDU) (rm : radiomap) :
  radiomap_init WCS to_header fitsfile = ret rm ->
  exists f : HDU,
    fitsfile !! 0%nat = Some f /\
    rm_f rm = f /\ rm_prhd rm = header f /\
    flatten WCS to_header fitsfile = ret (rm_fhead rm, rm_d rm) /\
    buf (rm_d rm) = buf (data f).
Proof.
  intros H.
  apply radiomap_init_ret in H
    as (f & bmaj & bmin & c0 & cd2 & fhead & d &
        Hf & _ & _ & _ & _ & _ & _ & Hfl & Hrm).
  exists f. rewrite Hrm. cbn [rm_f rm_prhd rm_fhead rm_d].
  repeat (split; [first [assumption|reflexivity]|]).
  rewrite flatten_cases, Hf in Hfl.
  destruct (header_get (header f) "NAXIS") as [naxis|]; [|discriminate].
  destruct (value_lt_2 naxis); [discriminate|].
  destruct (value_eq_2 naxis).
  - injection Hfl as _ <-. reflexivity.
  - apply bind_ret in Hfl as (hd' & _ & Hfl).
    apply bind_ret in Hfl as (k & _ & Hfl).
    apply bind_ret in Hfl as (d' & Hd & Hfl). injection Hfl as _ <-.
    unfold first_plane in Hd. apply bind_ret in Hd as (sh & _ & Hd).
    unfold ret in Hd. injection Hd as <-. reflexivity.
Qed.

(** X21. With positive beam axes in the header, a negative scale on the
    first axis and a positive scale on the second, the beam of the map
    the constructor returns is positive on both axes, and so is its
    area. *)
Theorem beam_area_positive (fitsfile : list HDU) (f : HDU) (rm : radiomap)
    (a b c0 cd2 : R) :
  fitsfile !! 0%nat = Some f ->
  resolve_beam (header f) = ret (Some (VFloat a), Some (VFloat b)) ->
  cdelt (WCS (header f)) !! 0%nat = Some c0 ->
  cdelt (WCS (header f)) !! 1%nat = Some cd2 ->
  (0 < a)%R -> (0 < b)%R -> (c0 < 0)%R -> (0 < cd2)%R ->
  radiomap_init WCS to_header fitsfile = ret rm ->
  (rm_bmaj rm = a / - c0)%R /\ (rm_bmin rm = b / cd2)%R /\
  (0 < rm_bmaj rm)%R /\ (0 < rm_bmin rm)%R /\ (0 < rm_area rm)%R.
Proof.
  intros Hf Hb Hc0 Hc1 Ha Hbp Hn Hp H.
  apply radiomap_init_ret in H
    as (f' & bmaj & bmin & c0' & cd2' & fhead & d &
        Hf' & Hb' & Hc0' & Hc1' & _ & Hx & Hy & _ & Hrm).
  rewrite Hf in Hf'. injection Hf' as <-.
  rewrite Hb in Hb'. injection Hb' as <- <-.
  rewrite Hc0 in Hc0'. injection Hc0' as <-.
  rewrite Hc1 in Hc1'. injection Hc1' as <-.
  simpl in Hx, Hy. injection Hx as Hx. injection Hy as Hy.
  assert (Hma : (0 < a / - c0)%R) by (apply Rdiv_lt_0_compat; lra).
  assert (Hmb : (0 < b / cd2)%R) by (apply Rdiv_lt_0_compat; lra).
  rewrite Hrm. cbn [rm_bmaj rm_bmin rm_area]. rewrite <- Hx, <- Hy.
  repeat (split; [first [reflexivity|assumption]|]).
  unfold beam_area. apply Rdiv_lt_0_compat; [|exact gfactor_sqr_pos].
  replace 2.0%R with 2%R by lra. pose proof PI_RGT_0.
  apply Rmult_lt_0_compat; [lra|]. apply Rmult_lt_0_compat; assumption.
Qed.

End MapProperties.

Lemma radiomap_shares_data_witness :
  exists f : HDU,
    open_ones "a.fits" !! 0%nat = Some f /\
    rm_f radiomap_fits_ones = f /\ rm_prhd radiomap_fits_ones = header f /\
    flatten keys_WCS keys_to_header (open_ones "a.fits")
    = ret (rm_fhead radiomap_fits_ones, rm_d radiomap_fits_ones) /\
    buf (rm_d radiomap_fits_ones) = buf (data f).
Proof.
  apply (radiomap_shares_data keys_WCS keys_to_header (open_ones "a.fits")).
  apply radiomap_fits_ones_built.
Defined.

Lemma beam_area_positive_witness :
  (rm_bmaj radiomap_fits_ones = 4.0 / - (-1.0))%R /\
  (rm_bmin radiomap_fits_ones = 2.0 / 1.0)%R /\
  (0 < rm_bmaj radiomap_fits_ones)%R /\ (0 < rm_bmin radiomap_fits_ones)%R /\
  (0 < rm_area radiomap_fits_ones)%R.
Proof.
  apply (beam_area_positive keys_WCS keys_to_header (open_ones "a.fits")
           (mkHDU (rm_prhd radiomap_fits_ones) (rm_d radiomap_fits_ones))
           radiomap_fits_ones 4.0 2.0 (-1.0) 1.0);
    try reflexivity; try lra.
  apply radiomap_fits_ones_built.
Defined.

(** ** The words of a history line *)

Lemma split_aux_space (c : ascii) (s : string) :
  is_space c = true ->
  split_aux (String c s) =
  (EmptyString,
   if String.eqb (fst (split_aux s)) "" then snd (split_aux s)
   else fst (split_aux s) :: snd (split_aux s)).
Proof.
  intros Hc. cbn [split_aux]. destruct (split_aux s) as [cur toks].
  rewrite Hc. reflexivity.
Qed.

Lemma split_aux_double_space (a b : string) (c c' : ascii) :
  is_space c = true -> is_space c' = true ->
  split_aux (a ++ String c (String c' b)) = split_aux (a ++ String c' b).
Proof.
  intros Hc Hc'. induction a as [|x a IH].
  - change (split_aux (String c (String c' b)) = split_aux (String c' b)).
    rewrite (split_aux_space c _ Hc), (split_aux_space c' b Hc').
    reflexivity.
  - change (split_aux (String x (a ++ String c (String c' b)))
            = split_aux (String x (a ++ String c' b))).
    cbn [split_aux]. rewrite IH. reflexivity.
Qed.

(** X22. The words of a history line are found whatever the amount of
    blank space between them: with one more blank character next to a
    blank character the line gives the same beam, or the same exception.
    (The test for ["CLEAN BMAJ"] is on the text of the line: it wants one
    space there.) *)
Theorem history_line_spacing (a b : string) (c c' : ascii) :
  is_space c = true -> is_space c' = true ->
  split (a ++ String c (String c' b)) = split (a ++ String c' b) /\
  line_beam (a ++ String c (String c' b)) = line_beam (a ++ String c' b).
Proof.
  intros Hc Hc'.
  assert (Hs : split (a ++ String c (String c' b)) = split (a ++ String c' b)).
  { unfold split. rewrite (split_aux_double_space a b c c' Hc Hc'). reflexivity. }
  split; [exact Hs|]. unfold line_beam. rewrite Hs. reflexivity.
Qed.

Lemma history_line_spacing_witness :
  line_beam "AIPS  CLEAN BMAJ 0.005 BMIN 0.003"
  = line_beam "AIPS CLEAN BMAJ 0.005 BMIN 0.003" /\
  str_in "CLEAN BMAJ" "AIPS CLEAN  BMAJ 0.005 BMIN 0.003" = false.
Proof.
  split; [|reflexivity].
  apply (proj2 (history_line_spacing "AIPS" "CLEAN BMAJ 0.005 BMIN 0.003"
                  " " " " eq_refl eq_refl)).
Defined.
